(** * LEARN-X: tenant-scoped retrieval and spaced-repetition queries

    A shallow embedding of the SQL that implements content search,
    row-level security and quiz scheduling:

    - [search_content_chunks] and the trigger
      [update_content_chunk_embedding] (pgvector migration),
    - the row-level-security policies of [20250509_rls/migration.sql],
    - [search_material_by_embedding] and
      [get_spaced_repetition_questions] (docs/database-schema.md).

    Tables are lists of records in heap-scan order, a nullable column is
    an [option], SQL [numeric]/[float] values are exact rationals, and a
    query is a pipeline FROM/JOIN, WHERE, ORDER BY, LIMIT over lists.
    Function arguments are non-NULL values; a subquery inside a policy
    reads the stored table. The chunking engine, whose implementation
    the repository only documents, is modelled from its specification. *)

From Stdlib Require Import List String Ascii Bool Arith ZArith QArith.
From Stdlib Require Import Qround Qpower Qminmax Lia Lqa Permutation Sorted.
Import ListNotations.

(** ** SQL building blocks *)

Module Sql.

(** Errors a query can raise at run time. *)
Inductive QueryError : Type :=
| InvalidRowCountInLimit.  (* LIMIT must not be negative *)

Inductive result (A : Type) : Type :=
| Ok (a : A)
| Err (e : QueryError).
Arguments Ok {A} a.
Arguments Err {A} e.

Definition Qgt_bool (a b : Q) : bool := negb (Qle_bool a b).

(** [x = y] where [y] may be NULL: NULL compares to nothing. *)
Definition eq_nullable (x : string) (y : option string) : bool :=
  match y with
  | Some v => String.eqb x v
  | None => false
  end.

(** Ascending comparison of nullable numbers; NULLS LAST, the default
    of an ascending ORDER BY. *)
Definition asc_nulls_last (a b : option Q) : bool :=
  match a, b with
  | Some x, Some y => Qle_bool x y
  | Some _, None => true
  | None, Some _ => false
  | None, None => true
  end.

Section OrderBy.
Context {A : Type}.
Variable leb : A -> A -> bool.

Fixpoint insert_row (x : A) (l : list A) : list A :=
  match l with
  | [] => [x]
  | y :: l' => if leb x y then x :: l else y :: insert_row x l'
  end.

(** ORDER BY as a stable sort of the rows in scan order: rows that
    compare equal keep the order in which the scan produced them,
    which SQL itself leaves unspecified. *)
Definition order_by (l : list A) : list A :=
  fold_right insert_row [] l.


(** LIMIT n: a negative count is a run-time error. *)
Definition limit (n : Z) (l : list A) : result (list A) :=
  if (n <? 0)%Z then Err InvalidRowCountInLimit
  else Ok (firstn (Z.to_nat n) l).
End OrderBy.

Definition map_result {A B : Type} (f : A -> B) (r : result (list A))
  : result (list B) :=
  match r with
  | Ok l => Ok (map f l)
  | Err e => Err e
  end.

Section Joins.
Context {A B : Type}.

(** [L JOIN R ON on] *)
Definition join (L : list A) (R : list B) (on : A -> B -> bool)
  : list (A * B) :=
  flat_map (fun a => map (fun b => (a, b)) (filter (on a) R)) L.

(** [L LEFT JOIN R ON on]: a left row without partner is kept once,
    NULL-extended. *)
Definition left_join (L : list A) (R : list B) (on : A -> B -> bool)
  : list (A * option B) :=
  flat_map (fun a =>
              match filter (on a) R with
              | [] => [(a, None)]
              | bs => map (fun b => (a, Some b)) bs
              end) L.
End Joins.

End Sql.
Import Sql.

(** ** Vector search over [content_chunks] *)

Module VectorSearch.

(** A pgvector value. *)
Definition vector : Type := list Q.

(** A row of [content_chunks]; [embedding vector(1536)] is nullable. *)
Record ContentChunk : Type := {
  chunk_id : string;
  chunk_content : string;
  chunk_material_id : string;
  chunk_embedding : option vector;
  chunk_created_at : Z;
  chunk_updated_at : Z
}.

(** A row returned by [search_content_chunks]:
    (id, content, material_id, similarity). *)
Record SearchRow : Type := {
  row_id : string;
  row_content : string;
  row_material_id : string;
  row_similarity : option Q
}.

Section Search.
(** pgvector's cosine-distance operator [<=>] on non-NULL vectors. *)
Variable cosine_distance : vector -> vector -> Q.

(** [c.embedding <=> query_embedding]; the operator is strict, a NULL
    embedding gives NULL. *)
Definition distance (query_embedding : vector) (c : ContentChunk)
  : option Q :=
  option_map (fun e => cosine_distance e query_embedding)
             (chunk_embedding c).

(** [1 - (c.embedding <=> query_embedding)] *)
Definition similarity (query_embedding : vector) (c : ContentChunk)
  : option Q :=
  option_map (fun d => 1 - d) (distance query_embedding c).

(** WHERE c.embedding IS NOT NULL
      AND 1 - (c.embedding <=> query_embedding) > similarity_threshold *)
Definition search_where (query_embedding : vector)
           (similarity_threshold : Q) (c : ContentChunk) : bool :=
  match chunk_embedding c with
  | None => false
  | Some _ =>
      match similarity query_embedding c with
      | Some s => Qgt_bool s similarity_threshold
      | None => false
      end
  end.

(** ORDER BY c.embedding <=> query_embedding *)
Definition search_order (query_embedding : vector)
           (c1 c2 : ContentChunk) : bool :=
  asc_nulls_last (distance query_embedding c1)
                 (distance query_embedding c2).

(** SELECT c.id::uuid, c.content, c.material_id::uuid,
           1 - (c.embedding <=> query_embedding) AS similarity;
    the casts are the identity on uuid columns. *)
Definition search_select (query_embedding : vector) (c : ContentChunk)
  : SearchRow :=
  {| row_id := chunk_id c;
     row_content := chunk_content c;
     row_material_id := chunk_material_id c;
     row_similarity := similarity query_embedding c |}.

(** The chunks the query ranks, before LIMIT and projection. *)
Definition search_ranked (content_chunks : list ContentChunk)
           (query_embedding : vector) (similarity_threshold : Q)
  : list ContentChunk :=
  order_by (search_order query_embedding)
           (filter (search_where query_embedding similarity_threshold)
                   content_chunks).

(** [search_content_chunks(query_embedding, similarity_threshold,
    match_count)] over the rows of [content_chunks] the caller sees. *)
Definition search_content_chunks (content_chunks : list ContentChunk)
           (query_embedding : vector) (similarity_threshold : Q)
           (match_count : Z) : result (list SearchRow) :=
  map_result (search_select query_embedding)
             (limit match_count
                    (search_ranked content_chunks query_embedding
                                   similarity_threshold)).
End Search.

(** The trigger function [update_content_chunk_embedding]: its body is
    [RETURN NEW]; the assignment to [NEW.embedding] is commented out. *)
Definition update_content_chunk_embedding (NEW : ContentChunk)
  : ContentChunk := NEW.


(** [INSERT INTO content_chunks VALUES (row)]: the BEFORE INSERT trigger
    runs on the proposed row and its result is stored. *)
Definition insert_chunk (content_chunks : list ContentChunk)
           (row : ContentChunk) : list ContentChunk :=
  content_chunks ++ [update_content_chunk_embedding row].



(** [r1] may precede [r2] in a result ordered by descending
    similarity. *)
Definition similarity_descending (r1 r2 : SearchRow) : Prop :=
  match row_similarity r1, row_similarity r2 with
  | Some s1, Some s2 => s2 <= s1
  | _, _ => False
  end.



(** Cosine distance of unit-length vectors: [1 - a.b]. Embeddings of
    the provider are normalised, and the examples below use unit
    vectors only. *)
Fixpoint dot (a b : vector) : Q :=
  match a, b with
  | x :: a', y :: b' => x * y + dot a' b'
  | _, _ => 0
  end.

Definition unit_cosine_distance (a b : vector) : Q := 1 - dot a b.

End VectorSearch.

(** ** Course-scoped search (docs/database-schema.md) *)

Module MaterialSearch.
Import VectorSearch.

Record Material : Type := {
  material_id : string;
  material_course_id : string
}.

Record MaterialContent : Type := {
  content_id : string;
  content_material_id : string;
  content_text : string
}.

(** A row of [embeddings]; [embedding vector(1536)] is nullable. *)
Record Embedding : Type := {
  embedding_id : string;
  embedding_material_content_id : string;
  embedding_vector : option vector
}.

Record Database : Type := {
  materials : list Material;
  material_content : list MaterialContent;
  embeddings : list Embedding
}.

(** (material_content_id, material_id, content, similarity) *)
Record MaterialRow : Type := {
  result_material_content_id : string;
  result_material_id : string;
  result_content : string;
  result_similarity : option Q
}.



Section Search.
Variable cosine_distance : vector -> vector -> Q.


End Search.

End MaterialSearch.

(** ** Row-level security (20250509_rls/migration.sql)

    The tables of the Prisma schema, reduced to their keys and the
    columns the policies read. *)

Module Rls.
Import VectorSearch.

Inductive UserRole : Type := STUDENT | PROFESSOR | ADMIN.

Record User : Type := {
  user_id : string;
  user_organizationId : string;
  user_role : UserRole
}.

Record Course : Type := {
  course_id : string;
  course_organizationId : string;
  course_professorId : string
}.

Record CourseModule : Type := {
  module_id : string;
  module_courseId : string
}.

Record Topic : Type := {
  topic_id : string;
  topic_moduleId : string
}.

Record Material : Type := {
  material_id : string;
  material_topicId : string
}.

Record Quiz : Type := {
  quiz_id : string;
  quiz_courseId : string
}.

Record QuizAttempt : Type := {
  attempt_id : string;
  attempt_userId : string;
  attempt_quizId : string
}.

Record AIInteraction : Type := {
  interaction_id : string;
  interaction_userId : string
}.

Record Database : Type := {
  users : list User;
  courses : list Course;
  modules : list CourseModule;
  topics : list Topic;
  materials : list Material;
  content_chunks : list ContentChunk;
  quizzes : list Quiz;
  quiz_attempts : list QuizAttempt;
  ai_interactions : list AIInteraction
}.

(** [current_setting('app.current_user_id', true)]: NULL when the
    setting is absent. *)
Definition Session : Type := option string.

(** (SELECT "organizationId" FROM "users"
     WHERE "users".id = current_setting('app.current_user_id', true));
    [id] is the primary key, so the scalar subquery has at most one row,
    and none gives NULL. *)
Definition current_organization (db : Database) (cur : Session)
  : option string :=
  match find (fun u => eq_nullable (user_id u) cur) (users db) with
  | Some u => Some (user_organizationId u)
  | None => None
  end.

(** SELECT "id" FROM "courses" WHERE "organizationId" = (...) *)
Definition courses_of_current_organization (db : Database) (cur : Session)
  : list string :=
  map course_id
      (filter (fun c => eq_nullable (course_organizationId c)
                                    (current_organization db cur))
              (courses db)).

(** SELECT "id" FROM "modules" WHERE "courseId" IN (...) *)
Definition modules_of_current_organization (db : Database) (cur : Session)
  : list string :=
  map module_id
      (filter (fun m => existsb (String.eqb (module_courseId m))
                                (courses_of_current_organization db cur))
              (modules db)).

(** SELECT "id" FROM "topics" WHERE "moduleId" IN (...) *)
Definition topics_of_current_organization (db : Database) (cur : Session)
  : list string :=
  map topic_id
      (filter (fun t => existsb (String.eqb (topic_moduleId t))
                                (modules_of_current_organization db cur))
              (topics db)).

(** SELECT "id" FROM "materials" WHERE "topicId" IN (...) *)
Definition materials_of_current_organization (db : Database) (cur : Session)
  : list string :=
  map material_id
      (filter (fun m => existsb (String.eqb (material_topicId m))
                                (topics_of_current_organization db cur))
              (materials db)).

(** "content_chunks_isolation_policy": USING ("materialId" IN (...)) *)
Definition content_chunks_isolation_policy (db : Database) (cur : Session)
           (c : ContentChunk) : bool :=
  existsb (String.eqb (chunk_material_id c))
          (materials_of_current_organization db cur).

(** The rows of [content_chunks] a query run in the session sees. *)
Definition visible_content_chunks (db : Database) (cur : Session)
  : list ContentChunk :=
  filter (content_chunks_isolation_policy db cur) (content_chunks db).





(** *** Ownership by foreign-key navigation *)









(** Primary keys of the tables the content policy walks. *)
Record primary_keys (db : Database) : Prop := {
  pk_courses : NoDup (map course_id (courses db));
  pk_modules : NoDup (map module_id (modules db));
  pk_topics : NoDup (map topic_id (topics db));
  pk_materials : NoDup (map material_id (materials db));
  pk_content_chunks : NoDup (map chunk_id (content_chunks db))
}.

(** *** The access rule as the specification words it

    Context (organization, user, role) and target scope; a user-scoped
    target names its owner and the course it belongs to. *)









End Rls.

(** ** Spaced-repetition scheduling (docs/database-schema.md)

    [get_spaced_repetition_questions] over the quiz tables of the
    documented schema. Timestamps are epoch seconds. *)

Module Scheduler.

Record Quiz : Type := {
  quiz_id : string;
  quiz_course_id : string
}.

Record QuizQuestion : Type := {
  question_id : string;
  question_quiz_id : string;
  question_text : string;
  question_type : string;
  question_options : option string
}.

Record QuizAttempt : Type := {
  attempt_id : string;
  attempt_quiz_id : string;
  attempt_user_id : string
}.

Record QuizResponse : Type := {
  response_id : string;
  response_quiz_attempt_id : string;
  response_question_id : string;
  response_is_correct : option bool;
  response_created_at : option Q
}.

Record Database : Type := {
  quizzes : list Quiz;
  quiz_questions : list QuizQuestion;
  quiz_attempts : list QuizAttempt;
  quiz_responses : list QuizResponse
}.

(** A row of the CTE [user_question_history]. *)
Record History : Type := {
  history_question_id : string;
  history_last_seen : option Q;
  history_performance_score : option Q
}.

(** A row returned by the function. *)
Record ScheduledQuestion : Type := {
  out_question_id : string;
  out_question : string;
  out_question_type : string;
  out_options : option string;
  out_last_seen : option Q;
  out_performance_score : Q
}.

(** MAX over a column: NULLs are skipped, no value gives NULL. *)
Fixpoint sql_max (l : list (option Q)) : option Q :=
  match l with
  | [] => None
  | None :: l' => sql_max l'
  | Some x :: l' =>
      match sql_max l' with
      | None => Some x
      | Some m => Some (if Qle_bool x m then m else x)
      end
  end.

Definition Qsum (l : list Q) : Q := fold_right Qplus 0 l.

(** AVG over a column without NULLs; no row gives NULL. *)
Definition sql_avg (l : list Q) : option Q :=
  match l with
  | [] => None
  | _ => Some (Qsum l / inject_Z (Z.of_nat (List.length l)))
  end.

(** GREATEST(a, b) with [a] nullable: NULL arguments are ignored. *)
Definition sql_greatest (a : option Q) (b : Q) : Q :=
  match a with
  | Some x => Qmax x b
  | None => b
  end.

(** A row of
    quiz_questions qq JOIN quizzes q LEFT JOIN quiz_responses qr
    LEFT JOIN quiz_attempts qa. *)
Definition HistoryJoinRow : Type :=
  (QuizQuestion * Quiz * option QuizResponse * option QuizAttempt)%type.

(** The columns of qq, q and qr in a joined row. *)
Definition join_qq (row : HistoryJoinRow) : QuizQuestion :=
  fst (fst (fst row)).

Definition join_q (row : HistoryJoinRow) : Quiz := snd (fst (fst row)).

Definition join_qr (row : HistoryJoinRow) : option QuizResponse :=
  snd (fst row).

(** FROM quiz_questions qq
    JOIN quizzes q ON qq.quiz_id = q.id
    LEFT JOIN quiz_responses qr ON qq.id = qr.question_id
    LEFT JOIN quiz_attempts qa
           ON qr.quiz_attempt_id = qa.id AND qa.user_id = p_user_id
    WHERE q.course_id = p_course_id *)
Definition history_join (db : Database) (p_user_id p_course_id : string)
  : list HistoryJoinRow :=
  filter
    (fun row : HistoryJoinRow =>
       String.eqb (quiz_course_id (join_q row)) p_course_id)
    (left_join
       (left_join
          (join (quiz_questions db) (quizzes db)
                (fun qq q => String.eqb (question_quiz_id qq) (quiz_id q)))
          (quiz_responses db)
          (fun (l : QuizQuestion * Quiz) qr =>
             String.eqb (question_id (fst l)) (response_question_id qr)))
       (quiz_attempts db)
       (fun (l : QuizQuestion * Quiz * option QuizResponse) qa =>
          match snd l with
          | Some qr =>
              String.eqb (response_quiz_attempt_id qr) (attempt_id qa)
              && String.eqb (attempt_user_id qa) p_user_id
          | None => false
          end)).

(** qq.id *)
Definition join_question_id (row : HistoryJoinRow) : string :=
  question_id (join_qq row).

(** qr.created_at; NULL on a NULL-extended row. *)
Definition join_created_at (row : HistoryJoinRow) : option Q :=
  match join_qr row with
  | Some r => response_created_at r
  | None => None
  end.

(** CASE WHEN qr.is_correct THEN 1.0 ELSE 0.0 END *)
Definition join_correct (row : HistoryJoinRow) : Q :=
  match join_qr row with
  | Some r =>
      match response_is_correct r with
      | Some true => 1
      | _ => 0
      end
  | None => 0
  end.

(** SELECT qq.id, MAX(qr.created_at), AVG(CASE ...) ... GROUP BY qq.id
    over the joined rows. *)
Definition history_groups (rows : list HistoryJoinRow) : list History :=
  map (fun k =>
         let group :=
           filter (fun row => String.eqb (join_question_id row) k) rows in
         {| history_question_id := k;
            history_last_seen := sql_max (map join_created_at group);
            history_performance_score := sql_avg (map join_correct group) |})
      (nodup string_dec (map join_question_id rows)).

(** The CTE [user_question_history]. *)
Definition user_question_history (db : Database)
           (p_user_id p_course_id : string) : list History :=
  history_groups (history_join db p_user_id p_course_id).

(** A row of the outer FROM:
    quiz_questions qq JOIN quizzes q LEFT JOIN user_question_history uqh. *)
Definition ScheduleJoinRow : Type :=
  (QuizQuestion * Quiz * option History)%type.

(** uqh.last_seen; NULL when [uqh] is NULL-extended. *)
Definition row_last_seen (row : ScheduleJoinRow) : option Q :=
  match snd row with
  | Some h => history_last_seen h
  | None => None
  end.

(** uqh.performance_score *)
Definition row_performance (row : ScheduleJoinRow) : option Q :=
  match snd row with
  | Some h => history_performance_score h
  | None => None
  end.

Section Schedule.
(** The engine's POWER(base, exponent) on [numeric]. *)
Variable POWER : Q -> Q -> Q.

(** EXTRACT(EPOCH FROM (current_date - last_seen)) /
    (86400 * POWER(2, GREATEST(performance_score * 5, 1))) *)
Definition repetition_score (current_date last_seen : Q)
           (performance_score : option Q) : Q :=
  (current_date - last_seen) /
  (86400 * POWER 2 (sql_greatest
                      (option_map (fun p => p * 5) performance_score) 1)).

(** CASE WHEN uqh.last_seen IS NULL THEN 0 ELSE 1 END *)
Definition order_group (row : ScheduleJoinRow) : Z :=
  match row_last_seen row with
  | None => 0%Z
  | Some _ => 1%Z
  end.

(** CASE WHEN uqh.last_seen IS NULL THEN 0 ELSE <repetition score> END *)
Definition order_score (current_date : Q) (row : ScheduleJoinRow) : Q :=
  match row_last_seen row with
  | None => 0
  | Some last_seen =>
      repetition_score current_date last_seen (row_performance row)
  end.

(** ORDER BY <group>, <score> DESC *)
Definition schedule_order (current_date : Q) (r1 r2 : ScheduleJoinRow)
  : bool :=
  (order_group r1 <? order_group r2)%Z
  || ((order_group r1 =? order_group r2)%Z
      && Qle_bool (order_score current_date r2)
                  (order_score current_date r1)).

(** SELECT qq.id, qq.question, qq.question_type, qq.options,
           uqh.last_seen, COALESCE(uqh.performance_score, 0.5) *)
Definition schedule_select (row : ScheduleJoinRow) : ScheduledQuestion :=
  let qq := fst (fst row) in
  {| out_question_id := question_id qq;
     out_question := question_text qq;
     out_question_type := question_type qq;
     out_options := question_options qq;
     out_last_seen := row_last_seen row;
     out_performance_score :=
       match row_performance row with
       | Some p => p
       | None => 1 # 2
       end |}.

(** FROM quiz_questions qq JOIN quizzes q ON qq.quiz_id = q.id
    LEFT JOIN user_question_history uqh ON qq.id = uqh.question_id
    WHERE q.course_id = p_course_id *)
Definition schedule_join (db : Database) (p_user_id p_course_id : string)
  : list ScheduleJoinRow :=
  filter
    (fun row : ScheduleJoinRow =>
       String.eqb (quiz_course_id (snd (fst row))) p_course_id)
    (left_join
       (join (quiz_questions db) (quizzes db)
             (fun qq q => String.eqb (question_quiz_id qq) (quiz_id q)))
       (user_question_history db p_user_id p_course_id)
       (fun (l : QuizQuestion * Quiz) uqh =>
          String.eqb (question_id (fst l)) (history_question_id uqh))).

(** [get_spaced_repetition_questions(p_user_id, p_course_id, p_count)]
    evaluated at time [current_date] = NOW(). *)
Definition get_spaced_repetition_questions (db : Database)
           (current_date : Q) (p_user_id p_course_id : string)
           (p_count : Z) : result (list ScheduledQuestion) :=
  map_result schedule_select
             (limit p_count
                    (order_by (schedule_order current_date)
                              (schedule_join db p_user_id p_course_id))).
End Schedule.

(** *** The user's own history, as the specification words it *)






(** The question ids of a result, in order. *)
Definition question_ids (r : result (list ScheduledQuestion))
  : option (list string) :=
  match r with
  | Ok rows => Some (map out_question_id rows)
  | Err _ => None
  end.

(** A POWER that is exact at integer exponents,
    [b ^ n * (1 + (e - n) * (b - 1))] with [n] the floor of [e]; the
    examples use base 2 and integer exponents only. *)
Definition power_interpolated (b e : Q) : Q :=
  Qpower b (Qfloor e) * (1 + (e - inject_Z (Qfloor e)) * (b - 1)).

End Scheduler.

(** ** Chunking engine

    The repository documents [ContentChunkingService.chunk_text] but its
    implementation is not among the sources; the definitions of this
    module follow the specification's description of the engine. *)

Module Chunking.
Local Open Scope nat_scope.

Inductive ChunkError : Type :=
| ValidationError.

(** A chunk draft: ordinal, character-offset range [start, end) into the
    source text, and the text of that range. *)
Record ChunkDraft : Type := {
  draft_material_id : string;
  draft_ordinal : nat;
  draft_start : nat;
  draft_end : nat;
  draft_text : string
}.

Definition is_whitespace (c : ascii) : bool :=
  match nat_of_ascii c with
  | 9 | 10 | 13 | 32 => true
  | _ => false
  end.

Definition is_newline (c : ascii) : bool := Nat.eqb (nat_of_ascii c) 10.

Definition is_sentence_end (c : ascii) : bool :=
  match nat_of_ascii c with
  | 33 | 46 | 63 => true
  | _ => false
  end.

(** The character before offset [p], and the one before that. *)
Definition char_before (chars : list ascii) (p : nat) : option ascii :=
  match p with
  | 0 => None
  | S i => nth_error chars i
  end.

Definition test_char (f : ascii -> bool) (o : option ascii) : bool :=
  match o with
  | Some c => f c
  | None => false
  end.

Inductive Boundary : Type := Paragraph | Sentence | Whitespace.

(** Modelled from the spec: what a natural boundary is. A cut at offset
    [p] is a paragraph boundary after a blank line, a sentence boundary
    after sentence punctuation followed by whitespace, a whitespace
    boundary after any whitespace character. *)
Definition boundary_at (chars : list ascii) (b : Boundary) (p : nat) : bool :=
  match b with
  | Paragraph =>
      test_char is_newline (char_before chars p)
      && test_char is_newline (char_before chars (pred p))
  | Sentence =>
      test_char is_whitespace (char_before chars p)
      && test_char is_sentence_end (char_before chars (pred p))
  | Whitespace => test_char is_whitespace (char_before chars p)
  end.

(** The greatest offset [p] with [lo < p <= lo + width] that satisfies
    [f]. *)
Fixpoint last_offset (f : nat -> bool) (lo width : nat) : option nat :=
  match width with
  | 0 => None
  | S w => if f (lo + width) then Some (lo + width) else last_offset f lo w
  end.

(** The least offset [p] with [lo < p <= lo + width] that satisfies [f]. *)
Fixpoint first_offset (f : nat -> bool) (lo width : nat) : option nat :=
  match width with
  | 0 => None
  | S w => if f (S lo) then Some (S lo) else first_offset f (S lo) w
  end.

Definition or_else {A : Type} (a b : option A) : option A :=
  match a with
  | Some _ => a
  | None => b
  end.

(** Modelled from the spec: the end of the chunk that starts at [start]
    when more than [target_size] characters remain. Paragraph boundaries
    are preferred to sentence boundaries, those to whitespace; within a
    class the last boundary up to [start + target_size] is taken, else
    the first one up to the ceiling [start + target_size * 3 / 2]; with
    no natural boundary the cut is hard, at [start + target_size]. A cut
    lies beyond the overlap, [start + overlap], and within the text. *)
Definition chunk_end (chars : list ascii) (start target_size overlap : nat)
  : nat :=
  let len := List.length chars in
  let target := start + target_size in
  let ceiling := Nat.min len (start + target_size + target_size / 2) in
  let natural (b : Boundary) : option nat :=
    or_else (last_offset (boundary_at chars b) (start + overlap)
                         (target_size - overlap))
            (first_offset (boundary_at chars b) target (ceiling - target)) in
  match or_else (natural Paragraph)
                (or_else (natural Sentence) (natural Whitespace)) with
  | Some p => p
  | None => target
  end.

(** Modelled from the spec: the chunking loop. Each iteration emits the
    range of one chunk; the next chunk starts [overlap] characters
    before the end of the previous one. [None] when the iteration budget
    is exhausted. *)
Fixpoint chunk_ranges (fuel : nat) (chars : list ascii)
         (start ordinal target_size overlap : nat)
  : option (list (nat * nat * nat)) :=
  match fuel with
  | 0 => None
  | S fuel' =>
      let len := List.length chars in
      if len - start <=? target_size
      then Some [(ordinal, start, len)]
      else
        let e := chunk_end chars start target_size overlap in
        if len <=? e
        then Some [(ordinal, start, len)]
        else
          match chunk_ranges fuel' chars (e - overlap) (S ordinal)
                             target_size overlap with
          | Some rest => Some ((ordinal, start, e) :: rest)
          | None => None
          end
  end.

Definition draft_of (material : string) (text : string)
           (range : nat * nat * nat) : ChunkDraft :=
  let '(ordinal, s, e) := range in
  {| draft_material_id := material;
     draft_ordinal := ordinal;
     draft_start := s;
     draft_end := e;
     draft_text := substring s (e - s) text |}.

(** Modelled from the spec: [chunk(material_id, text, target_size,
    overlap)] run with an iteration budget. A zero [target_size] or an
    overlap that is not smaller than it is a validation error; empty or
    whitespace-only text gives no chunk. *)
Definition chunk_with_budget (fuel : nat) (material_id text : string)
           (target_size overlap : nat)
  : option (ChunkError + list ChunkDraft) :=
  let chars := list_ascii_of_string text in
  if (target_size =? 0) || (target_size <=? overlap)
  then Some (inl ValidationError)
  else if forallb is_whitespace chars
       then Some (inr [])
       else
         match chunk_ranges fuel chars 0 0 target_size overlap with
         | Some ranges => Some (inr (map (draft_of material_id text) ranges))
         | None => None
         end.

(** Modelled from the spec: [chunk], with a budget of one iteration per
    character of the text. *)
Definition chunk (material_id text : string) (target_size overlap : nat)
  : option (ChunkError + list ChunkDraft) :=
  chunk_with_budget (S (String.length text)) material_id text
                    target_size overlap.

(** The chunk boundaries of a result: ordinals and offset ranges. *)
Definition boundaries (r : ChunkError + list ChunkDraft)
  : option (list (nat * nat * nat)) :=
  match r with
  | inl _ => None
  | inr drafts =>
      Some (map (fun d => (draft_ordinal d, draft_start d, draft_end d))
                drafts)
  end.

Fixpoint repeat_char (c : ascii) (n : nat) : string :=
  match n with
  | 0 => EmptyString
  | S n' => String c (repeat_char c n')
  end.

End Chunking.

(** ** Sample data used in the witnesses and counterexamples below *)

Module Samples.
Import VectorSearch.
Local Open Scope string_scope.

Definition chunk (id material : string) (e : option vector) : ContentChunk :=
  {| chunk_id := id;
     chunk_content := "text of " ++ id;
     chunk_material_id := material;
     chunk_embedding := e;
     chunk_created_at := 0;
     chunk_updated_at := 0 |}.

Definition row (id material : string) (s : Q) : SearchRow :=
  {| row_id := id;
     row_content := "text of " ++ id;
     row_material_id := material;
     row_similarity := Some s |}.

(** Unit vectors along the two axes. *)
Definition east : vector := [1; 0].
Definition north : vector := [0; 1].


(** One embedded chunk and one chunk still waiting for its embedding. *)
Definition half_embedded : list ContentChunk :=
  [chunk "chunk-0" "material-1" (Some east);
   chunk "chunk-1" "material-1" None].


(** Two chunks at different distances from [east]. *)
Definition untied : list ContentChunk :=
  [chunk "chunk-0" "material-1" (Some north);
   chunk "chunk-1" "material-1" (Some east)].

(** Two organizations with one course, one material and one chunk
    each. Peter teaches course A and has the default role; Dana
    administers organization A. *)
Definition campus : Rls.Database :=
  {| Rls.users :=
       [Rls.Build_User "alice" "org-A" Rls.STUDENT;
        Rls.Build_User "peter" "org-A" Rls.STUDENT;
        Rls.Build_User "dana" "org-A" Rls.ADMIN;
        Rls.Build_User "bob" "org-B" Rls.STUDENT;
        Rls.Build_User "paula" "org-B" Rls.PROFESSOR];
     Rls.courses :=
       [Rls.Build_Course "course-A" "org-A" "peter";
        Rls.Build_Course "course-B" "org-B" "paula"];
     Rls.modules :=
       [Rls.Build_CourseModule "module-A" "course-A";
        Rls.Build_CourseModule "module-B" "course-B"];
     Rls.topics :=
       [Rls.Build_Topic "topic-A" "module-A";
        Rls.Build_Topic "topic-B" "module-B"];
     Rls.materials :=
       [Rls.Build_Material "material-A" "topic-A";
        Rls.Build_Material "material-B" "topic-B"];
     Rls.content_chunks :=
       [chunk "chunk-A" "material-A" (Some east);
        chunk "chunk-B" "material-B" (Some east)];
     Rls.quizzes := [Rls.Build_Quiz "quiz-A" "course-A"];
     Rls.quiz_attempts := [Rls.Build_QuizAttempt "attempt-1" "alice" "quiz-A"];
     Rls.ai_interactions := [Rls.Build_AIInteraction "interaction-1" "alice"]
  |}.




(** One course with one quiz; in the first two databases Uma answered
    question A correctly at time 0 and never answered question B. *)
Definition day : Q := 86400.

Definition quiz_question (id : string) : Scheduler.QuizQuestion :=
  {| Scheduler.question_id := id;
     Scheduler.question_quiz_id := "quiz-1";
     Scheduler.question_text := "text of " ++ id;
     Scheduler.question_type := "true_false";
     Scheduler.question_options := None |}.

Definition response (id attempt question : string) (correct : bool)
           (at_day : Q) : Scheduler.QuizResponse :=
  {| Scheduler.response_id := id;
     Scheduler.response_quiz_attempt_id := attempt;
     Scheduler.response_question_id := question;
     Scheduler.response_is_correct := Some correct;
     Scheduler.response_created_at := Some (at_day * day) |}.

Definition quiz_tables (questions : list string)
           (responses : list Scheduler.QuizResponse) : Scheduler.Database :=
  {| Scheduler.quizzes := [Scheduler.Build_Quiz "quiz-1" "course-1"];
     Scheduler.quiz_questions := map quiz_question questions;
     Scheduler.quiz_attempts :=
       [Scheduler.Build_QuizAttempt "attempt-uma" "quiz-1" "uma";
        Scheduler.Build_QuizAttempt "attempt-vic" "quiz-1" "vic"];
     Scheduler.quiz_responses := responses |}.



(** Five questions; Uma answered three of them on day 0, with
    performances 1, 0.5 and 0. *)
Definition review_course : Scheduler.Database :=
  quiz_tables
    ["question-1"; "question-2"; "question-3"; "question-4"; "question-5"]
    [response "response-1" "attempt-uma" "question-1" true 0;
     response "response-2" "attempt-uma" "question-2" true 0;
     response "response-3" "attempt-uma" "question-2" false 0;
     response "response-4" "attempt-uma" "question-3" false 0].

End Samples.

(** ** Order of a course-scoped result *)

Module MaterialRanking.
Import MaterialSearch.

(** [r1] may precede [r2] in a result ordered by similarity DESC. *)
Definition similarity_descending (r1 r2 : MaterialRow) : Prop :=
  match result_similarity r1, result_similarity r2 with
  | Some s1, Some s2 => s2 <= s1
  | _, _ => False
  end.

End MaterialRanking.

(** Sample course material for the course-scoped search. *)

Module MaterialSamples.
Import VectorSearch MaterialSearch.
Local Open Scope string_scope.


End MaterialSamples.

(** ** The remaining row-level-security policies
    (20250509_rls/migration.sql)

    The policies of [organizations], [users], [courses], [enrollments],
    [modules], [topics], [materials], [quizzes], [questions],
    [question_options], [question_answers] and [analytics_events], over
    the tables of [Rls] and the further tables they read. *)

Module Policies.
Import VectorSearch Rls.

Record Organization : Type := {
  organization_id : string
}.

Record Enrollment : Type := {
  enrollment_id : string;
  enrollment_userId : string;
  enrollment_courseId : string
}.

Record Question : Type := {
  question_id : string;
  question_quizId : string
}.

Record QuestionOption : Type := {
  option_id : string;
  option_questionId : string
}.

Record QuestionAnswer : Type := {
  answer_id : string;
  answer_questionId : string;
  answer_quizAttemptId : string
}.

(** [analytics_events]: "userId" and "courseId" are nullable. *)
Record AnalyticsEvent : Type := {
  event_id : string;
  event_userId : option string;
  event_courseId : option string
}.

Record Database : Type := {
  base : Rls.Database;
  organizations : list Organization;
  enrollments : list Enrollment;
  questions : list Question;
  question_options : list QuestionOption;
  question_answers : list QuestionAnswer;
  analytics_events : list AnalyticsEvent
}.

















End Policies.

(** A campus with its organizations, enrollment, questions and events. *)

Module PolicySamples.
Import Rls Policies.
Local Open Scope string_scope.

Definition campus : Policies.Database :=
  {| base := Samples.campus;
     organizations := [Build_Organization "org-A"; Build_Organization "org-B"];
     enrollments := [Build_Enrollment "enrollment-1" "alice" "course-A"];
     questions := [Build_Question "question-1" "quiz-A"];
     question_options := [Build_QuestionOption "option-1" "question-1"];
     question_answers :=
       [Build_QuestionAnswer "answer-1" "question-1" "attempt-1"];
     analytics_events :=
       [Build_AnalyticsEvent "event-1" (Some "alice") (Some "course-A");
        Build_AnalyticsEvent "event-2" None None] |}.

End PolicySamples.

(** ** Questions of a course and recorded responses *)

Module CourseQuestions.
Import Scheduler.



(** Primary keys of [quizzes] and [quiz_questions]. *)
Record primary_keys (db : Database) : Prop := {
  pk_quizzes : NoDup (map quiz_id (quizzes db));
  pk_quiz_questions : NoDup (map question_id (quiz_questions db))
}.

End CourseQuestions.

(** The schedule of the five-question course on day 10. *)

Module ScheduleSamples.


End ScheduleSamples.

(** ** The migration script (apply-migrations.js)

    A run of [applyMigrations] as the trace of what the script does to
    the outside world: console output, calls on the database client and
    [process.exit]. What the outside world answers is a [World]: each
    call either resolves or throws an error with a message. A call of
    [process.exit] ends the trace. Colours are left out. *)

Module Migrations.
Local Open Scope string_scope.

Inductive Outcome : Type :=
| Resolved
| Rejected (message : string).

Record World : Type := {
  (** process.env.DIRECT_URL *)
  DIRECT_URL : option string;
  (** client.connect() *)
  connect : Outcome;
  (** client.query(CREATE TABLE IF NOT EXISTS "_prisma_migrations" ...) *)
  create_tracking_table : Outcome;
  (** fs.readFileSync(filePath, 'utf8'): the text, or the error thrown *)
  read_file : string -> string + string;
  (** client.query(sql) on the text of a migration file *)
  run_sql : string -> Outcome;
  (** client.query(INSERT INTO "_prisma_migrations" ...) for a name *)
  insert_record : string -> Outcome;
  (** client.end() *)
  end_client : Outcome
}.

Inductive Statement : Type :=
| CreateTrackingTable
| MigrationSql (sql : string)
| InsertMigrationRecord (migrationName : string).

Inductive Message : Type :=
| MissingDirectUrl        (* Error: DIRECT_URL environment variable is not set *)
| CheckEnvFile            (* Please check your .env file ... *)
| Connecting              (* Connecting to database... *)
| Connected               (* Connected successfully! *)
| TrackingTableReady      (* Migration tracking table ready *)
| Applying (description : string)           (* Applying <d>... *)
| AppliedSuccessfully (description : string) (* <d> applied successfully *)
| ErrorApplying (description : string)      (* Error applying <d>: *)
| ErrorText (message : string)              (* error.message *)
| AlreadyApplied          (* This appears to be already applied, continuing... *)
| Recorded (migrationName : string)         (* Recorded migration <n> *)
| CouldNotRecord (migrationName : string)   (* Could not record migration <n>: *)
| SetupCompleted          (* Database setup completed successfully! *)
| DatabaseReady           (* The LEARN-X platform database is now ready for use. *)
| ErrorInMigrationProcess (* Error in migration process: *)
| FatalError (message : string).            (* Fatal error: <error> *)

Inductive Event : Type :=
| ConsoleLog (m : Message)
| ConsoleError (m : Message)
| ClientConnect
| ClientQuery (s : Statement)
| ClientEnd
| ProcessExit (code : Z).

(** [s.includes(sub)] *)
Fixpoint includes (s sub : string) : bool :=
  String.prefix sub s
  || match s with
     | EmptyString => false
     | String _ rest => includes rest sub
     end.

(** The catch block of [executeSqlFile]. *)
Definition sql_file_failed (description message : string)
  : list Event * bool :=
  if includes message "already exists"
  then ([ConsoleError (ErrorApplying description);
         ConsoleError (ErrorText message);
         ConsoleLog AlreadyApplied], true)
  else ([ConsoleError (ErrorApplying description);
         ConsoleError (ErrorText message)], false).

(** [executeSqlFile(client, filePath, description)]: what it does and
    the boolean it returns. *)
Definition executeSqlFile (w : World) (filePath description : string)
  : list Event * bool :=
  let '(events, success) :=
    match read_file w filePath with
    | inr message => sql_file_failed description message
    | inl sql =>
        match run_sql w sql with
        | Resolved =>
            ([ClientQuery (MigrationSql sql);
              ConsoleLog (AppliedSuccessfully description)], true)
        | Rejected message =>
            let '(events, success) := sql_file_failed description message in
            (ClientQuery (MigrationSql sql) :: events, success)
        end
    end in
  (ConsoleLog (Applying description) :: events, success).

(** [recordMigration(client, migrationName)]: an error is logged, not
    thrown. *)
Definition recordMigration (w : World) (migrationName : string)
  : list Event :=
  ClientQuery (InsertMigrationRecord migrationName)
  :: match insert_record w migrationName with
     | Resolved => [ConsoleLog (Recorded migrationName)]
     | Rejected message =>
         [ConsoleError (CouldNotRecord migrationName);
          ConsoleError (ErrorText message)]
     end.

Definition init_path : string := "migrations/20250509_init/migration.sql".
Definition rls_path : string := "migrations/20250509_rls/migration.sql".
Definition init_description : string := "initial schema migration".
Definition rls_description : string := "RLS policies migration".
Definition init_name : string := "20250509_init".
Definition rls_name : string := "20250509_rls".

(** The catch block of [applyMigrations]: [process.exit(1)] ends the
    process before the finally block. *)
Definition migration_process_failed (message : string) : list Event :=
  [ConsoleError ErrorInMigrationProcess;
   ConsoleError (ErrorText message);
   ProcessExit 1].

(** The finally block of [applyMigrations]; an error of [client.end()]
    reaches the handler installed on the call of [applyMigrations]. *)
Definition close_client (w : World) : list Event :=
  ClientEnd
  :: match end_client w with
     | Resolved => []
     | Rejected message => [ConsoleError (FatalError message); ProcessExit 1]
     end.

(** The two migrations, after the tracking table is ready. *)
Definition apply_both (w : World) : list Event :=
  let '(init_events, initSuccess) :=
    executeSqlFile w init_path init_description in
  init_events
  ++ (if initSuccess
      then recordMigration w init_name
           ++ (let '(rls_events, rlsSuccess) :=
                 executeSqlFile w rls_path rls_description in
               rls_events
               ++ (if rlsSuccess then recordMigration w rls_name else []))
      else []).

(** [!process.env.DIRECT_URL]: unset or empty. *)
Definition direct_url_missing (w : World) : bool :=
  match DIRECT_URL w with
  | None => true
  | Some url => String.eqb url ""
  end.

(** [applyMigrations()] *)
Definition applyMigrations (w : World) : list Event :=
  if direct_url_missing w
  then [ConsoleError MissingDirectUrl; ConsoleError CheckEnvFile;
        ProcessExit 1]
  else
    ConsoleLog Connecting :: ClientConnect
    :: match connect w with
       | Rejected message => migration_process_failed message
       | Resolved =>
           ConsoleLog Connected :: ClientQuery CreateTrackingTable
           :: match create_tracking_table w with
              | Rejected message => migration_process_failed message
              | Resolved =>
                  ConsoleLog TrackingTableReady
                  :: apply_both w
                  ++ [ConsoleLog SetupCompleted; ConsoleLog DatabaseReady]
                  ++ close_client w
              end
       end.

(** The exit code of the process: that of [process.exit], else 0. *)
Fixpoint exit_code (trace : list Event) : Z :=
  match trace with
  | [] => 0
  | ProcessExit code :: _ => code
  | _ :: rest => exit_code rest
  end.

(** The file was read and its SQL ran without error. *)
Definition ran_cleanly (w : World) (filePath : string) : bool :=
  match read_file w filePath with
  | inl sql => match run_sql w sql with
               | Resolved => true
               | Rejected _ => false
               end
  | inr _ => false
  end.

(** Reading or running the file failed with a message that contains
    "already exists". *)
Definition failed_as_duplicate (w : World) (filePath : string) : bool :=
  match read_file w filePath with
  | inl sql => match run_sql w sql with
               | Resolved => false
               | Rejected message => includes message "already exists"
               end
  | inr message => includes message "already exists"
  end.

(** The environment is set and the client connected and created the
    tracking table. *)
Definition database_reached (w : World) : bool :=
  negb (direct_url_missing w)
  && match connect w with Resolved => true | Rejected _ => false end
  && match create_tracking_table w with
     | Resolved => true
     | Rejected _ => false
     end.

(** [executeSqlFile] returns true on such a file. *)
Definition counts_as_applied (w : World) (filePath : string) : bool :=
  ran_cleanly w filePath || failed_as_duplicate w filePath.

(** What [executeSqlFile] can log or send: nothing but its own messages
    and the SQL of the file. *)
Definition sql_file_event (description : string) (e : Event) : Prop :=
  match e with
  | ConsoleLog (Applying d) | ConsoleLog (AppliedSuccessfully d)
  | ConsoleError (ErrorApplying d) => d = description
  | ConsoleError (ErrorText _) | ConsoleLog AlreadyApplied
  | ClientQuery (MigrationSql _) => True
  | _ => False
  end.

(** What [recordMigration] can log or send. *)
Definition record_event (migrationName : string) (e : Event) : Prop :=
  match e with
  | ClientQuery (InsertMigrationRecord n) | ConsoleLog (Recorded n)
  | ConsoleError (CouldNotRecord n) => n = migrationName
  | ConsoleError (ErrorText _) => True
  | _ => False
  end.

(** The two migrations log and send only events of [executeSqlFile] and
    [recordMigration]. *)
Definition migration_event (e : Event) : Prop :=
  match e with
  | ConsoleLog (Applying _) | ConsoleLog (AppliedSuccessfully _)
  | ConsoleError (ErrorApplying _) | ConsoleError (ErrorText _)
  | ConsoleLog AlreadyApplied | ClientQuery (MigrationSql _)
  | ClientQuery (InsertMigrationRecord _) | ConsoleLog (Recorded _)
  | ConsoleError (CouldNotRecord _) => True
  | _ => False
  end.

(** The events of [applyMigrations] when it is not: none of the two
    migrations, and an exit with code 1. *)
Definition early_event (e : Event) : Prop :=
  match e with
  | ConsoleError MissingDirectUrl | ConsoleError CheckEnvFile
  | ConsoleLog Connecting | ClientConnect | ConsoleLog Connected
  | ClientQuery CreateTrackingTable
  | ConsoleError ErrorInMigrationProcess | ConsoleError (ErrorText _)
  | ProcessExit _ => True
  | _ => False
  end.

(** [client.end()] resolves. *)
Definition closes_cleanly (w : World) : bool :=
  match end_client w with
  | Resolved => true
  | Rejected _ => false
  end.

End Migrations.

(** ** Frontend utilities (lib/utils.ts)

    A JavaScript string is its sequence of UTF-16 code units. Numbers
    are the integers they hold: the hash of [stringToColor] stays below
    2^53 for strings of up to 2^21 code units, where Number arithmetic
    on integers is exact. *)

Module Utils.
Local Open Scope Z_scope.

Definition JsString : Type := list Z.

(** A string literal of ASCII characters. *)
Fixpoint literal (s : string) : JsString :=
  match s with
  | EmptyString => []
  | String c rest => Z.of_nat (nat_of_ascii c) :: literal rest
  end.

(** [text.slice(0, end)] *)
Definition slice_to (text : JsString) (end_ : Z) : JsString :=
  let len := Z.of_nat (List.length text) in
  let final := if end_ <? 0 then Z.max (len + end_) 0 else Z.min end_ len in
  firstn (Z.to_nat final) text.

(** [truncateText(text, length)], [length] an integer. *)
Definition truncateText (text : JsString) (length : Z) : JsString :=
  if Z.of_nat (List.length text) <=? length then text
  else slice_to text length ++ literal "...".

(** ToInt32 on an integer. *)
Definition to_int32 (x : Z) : Z := (x + 2 ^ 31) mod 2 ^ 32 - 2 ^ 31.

(** [x << n], [x >> n] and [x & y] *)
Definition shl (x n : Z) : Z := to_int32 (Z.shiftl (to_int32 x) (n mod 32)).
Definition shr (x n : Z) : Z := Z.shiftr (to_int32 x) (n mod 32).
Definition band (x y : Z) : Z := Z.land (to_int32 x) (to_int32 y).

(** The body of the first loop of [stringToColor]:
    [hash = str.charCodeAt(i) + ((hash << 5) - hash)]. *)
Definition hash_step (hash code : Z) : Z := code + (shl hash 5 - hash).

Definition string_hash (str : JsString) : Z := fold_left hash_step str 0.

(** The code unit of a hexadecimal digit, lower case. *)
Definition hex_digit (d : Z) : Z := if d <? 10 then 48 + d else 87 + d.

(** [value.toString(16)] on a non-negative integer. *)
Fixpoint toString16_from (fuel : nat) (value : Z) : JsString :=
  match fuel with
  | O => []
  | S fuel' =>
      (if value <? 16 then [] else toString16_from fuel' (value / 16))
      ++ [hex_digit (value mod 16)]
  end.

Definition toString16 (value : Z) : JsString :=
  toString16_from (S (Z.to_nat (Z.log2 value))) value.

(** [s.substr(-n)] *)
Definition substr_last (s : JsString) (n : nat) : JsString :=
  skipn (List.length s - n) s.

(** The body of the second loop of [stringToColor]. *)
Definition colour_part (hash i : Z) : JsString :=
  let value := band (shr hash (i * 8)) 255 in
  substr_last (literal "00" ++ toString16 value) 2.

(** [stringToColor(str)] *)
Definition stringToColor (str : JsString) : JsString :=
  let hash := string_hash str in
  fold_left (fun color i => color ++ colour_part hash i) [0; 1; 2]
    (literal "#").

(** A UTF-16 code unit. *)
Definition code_unit (c : Z) : Prop := 0 <= c < 65536.

(** The code unit of one of 0-9, a-f. *)
Definition is_hex_digit (c : Z) : Prop := 48 <= c <= 57 \/ 97 <= c <= 102.

(** The hash that multiplies by 31 and adds the next code unit. *)
Definition polynomial_hash (str : JsString) : Z :=
  fold_left (fun h c => 31 * h + c) str 0.

(** The two hexadecimal digits of a byte. *)
Definition hex_pair (b : Z) : JsString :=
  [hex_digit (b / 16); hex_digit (b mod 16)].

(** Byte [i] of an integer, byte 0 the lowest. *)
Definition byte_of (x i : Z) : Z := (x / 2 ^ (8 * i)) mod 256.

End Utils.

(** ** The session in the browser (lib/api/client.ts, lib/api/auth.ts)

    The script runs in a browser ([window] is defined). Of the browser
    it uses the item 'auth_token' of [localStorage] and the path of the
    page. *)

Module Session.
Local Open Scope string_scope.

Record Browser : Type := {
  (** localStorage.getItem('auth_token') *)
  auth_token : option string;
  (** window.location.pathname *)
  pathname : string
}.

Record DecodedToken : Type := {
  sub : string;
  org : string;
  role : string;
  exp : Q
}.

Definition setItem (token : string) (b : Browser) : Browser :=
  {| auth_token := Some token; pathname := pathname b |}.

Definition removeItem (b : Browser) : Browser :=
  {| auth_token := None; pathname := pathname b |}.

(** [window.location.href = path] *)
Definition navigate (path : string) (b : Browser) : Browser :=
  {| auth_token := auth_token b; pathname := path |}.

(** A string in a condition: the empty string is false. *)
Definition truthy (s : string) : bool := negb (String.eqb s "").

(** The request interceptor of [apiClient]: the Authorization header it
    sets, if any. *)
Definition request_authorization (b : Browser) : option string :=
  match auth_token b with
  | Some token => if truthy token then Some ("Bearer " ++ token) else None
  | None => None
  end.

(** The error handler of the response interceptor of [apiClient], on an
    error whose response, if any, has the given status. The error is
    passed on in every case. *)
Definition response_error (status : option Z) (b : Browser) : Browser :=
  match status with
  | Some 401%Z =>
      let b := removeItem b in
      if negb (Migrations.includes (pathname b) "/login")
      then navigate "/login" b
      else b
  | _ => b
  end.

(** [authService.login], once the request has succeeded with the given
    access token. *)
Definition login (access_token : string) (b : Browser) : Browser :=
  if truthy access_token then setItem access_token b else b.

(** [authService.logout] *)
Definition logout (b : Browser) : Browser := removeItem b.

Section Decoding.

(** [jwtDecode(token)]: the payload, or nothing when it throws. *)
Variable jwtDecode : string -> option DecodedToken.

(** [authService.isAuthenticated()], at [Date.now() = now]. *)
Definition isAuthenticated (now : Q) (b : Browser) : bool :=
  match auth_token b with
  | None => false
  | Some token =>
      if negb (truthy token) then false
      else match jwtDecode token with
           | Some decoded =>
               let currentTime := now / 1000 in
               negb (Qle_bool (exp decoded) currentTime)
           | None => false
           end
  end.

(** [authService.getDecodedToken()] *)
Definition getDecodedToken (b : Browser) : option DecodedToken :=
  match auth_token b with
  | None => None
  | Some token => if negb (truthy token) then None else jwtDecode token
  end.

End Decoding.

End Session.

(** * Proofs *)

(** ** Facts about ORDER BY and LIMIT *)

Section LimitFacts.
Context {A : Type}.

Lemma firstn_In (n : nat) (x : A) (l : list A) : In x (firstn n l) -> In x l.
Proof.
  revert l; induction n as [|n IH]; intros [|y l]; simpl; try tauto.
  intros [H|H]; [left; exact H | right; apply IH, H].
Qed.

Lemma limit_Ok (n : Z) (l rows : list A) :
  limit n l = Ok rows -> rows = firstn (Z.to_nat n) l /\ (0 <= n)%Z.
Proof.
  unfold limit. destruct (Z.ltb_spec n 0) as [Hneg|Hpos]; [discriminate|].
  intros E; inversion E; auto.
Qed.



End LimitFacts.

Section OrderByFacts.
Context {A : Type}.
Variable leb : A -> A -> bool.

Lemma insert_row_perm (x : A) (l : list A) :
  Permutation (insert_row leb x l) (x :: l).
Proof.
  induction l as [|y l IH]; simpl.
  - apply Permutation_refl.
  - destruct (leb x y).
    + apply Permutation_refl.
    + eapply perm_trans; [apply perm_skip, IH | apply perm_swap].
Qed.

Lemma order_by_perm (l : list A) : Permutation (order_by leb l) l.
Proof.
  induction l as [|x l IH]; simpl.
  - constructor.
  - eapply perm_trans; [apply insert_row_perm | apply perm_skip, IH].
Qed.

Lemma order_by_In (x : A) (l : list A) : In x (order_by leb l) <-> In x l.
Proof.
  split; apply Permutation_in;
    [apply order_by_perm | apply Permutation_sym, order_by_perm].
Qed.

(** The comparison is total and transitive on the rows being sorted. *)
Variable P : A -> Prop.
Hypothesis leb_total : forall a b, P a -> P b -> leb a b = true \/ leb b a = true.
Hypothesis leb_trans :
  forall a b c, P a -> P b -> P c ->
                leb a b = true -> leb b c = true -> leb a c = true.





End OrderByFacts.


(** ** Facts about [search_content_chunks] *)

Section SearchFacts.
Import VectorSearch.
Variable cosine_distance : vector -> vector -> Q.

Local Abbreviation search := (search_content_chunks cosine_distance).
Local Abbreviation ranked := (search_ranked cosine_distance).

Lemma Qgt_bool_iff (a b : Q) : Qgt_bool a b = true <-> b < a.
Proof.
  unfold Qgt_bool. rewrite negb_true_iff.
  split; intros H.
  - apply Qnot_le_lt. intros Hle. apply Qle_bool_iff in Hle. congruence.
  - destruct (Qle_bool a b) eqn:E; [|reflexivity].
    apply Qle_bool_iff in E. exfalso. apply (Qlt_not_le _ _ H E).
Qed.

Lemma search_where_true (q : vector) (t : Q) (c : ContentChunk) :
  search_where cosine_distance q t c = true <->
  exists e, chunk_embedding c = Some e /\ t < 1 - cosine_distance e q.
Proof.
  unfold search_where, similarity, distance.
  destruct (chunk_embedding c) as [e|]; simpl.
  - rewrite Qgt_bool_iff. split.
    + intros H. exists e. split; [reflexivity | exact H].
    + intros [e' [E H]]. inversion E; subst. exact H.
  - split; [discriminate | intros [e [E _]]; discriminate].
Qed.

Lemma ranked_In (tbl : list ContentChunk) (q : vector) (t : Q)
      (c : ContentChunk) :
  In c (ranked tbl q t) <->
  In c tbl /\ search_where cosine_distance q t c = true.
Proof.
  unfold search_ranked. rewrite order_by_In, filter_In. tauto.
Qed.

Lemma search_Ok (tbl : list ContentChunk) (q : vector) (t : Q) (n : Z)
      (rows : list SearchRow) :
  search tbl q t n = Ok rows ->
  rows = map (search_select cosine_distance q)
             (firstn (Z.to_nat n) (ranked tbl q t)).
Proof.
  unfold search_content_chunks.
  destruct (limit n (ranked tbl q t)) as [l|e] eqn:E; simpl; [|discriminate].
  apply limit_Ok in E. destruct E as [-> _].
  intros H; inversion H; reflexivity.
Qed.


(** Every returned row is the projection of a stored chunk that passed
    the WHERE clause. *)
Lemma search_row_origin (tbl : list ContentChunk) (q : vector) (t : Q)
      (n : Z) (rows : list SearchRow) (r : SearchRow) :
  search tbl q t n = Ok rows -> In r rows ->
  exists c, In c tbl /\ search_where cosine_distance q t c = true /\
            r = search_select cosine_distance q c.
Proof.
  intros H Hr. apply search_Ok in H. subst rows.
  apply in_map_iff in Hr. destruct Hr as [c [<- Hc]].
  apply firstn_In, ranked_In in Hc. destruct Hc as [Hc Hw].
  exists c. repeat split; assumption.
Qed.

Lemma chunk_by_id_unique (tbl : list ContentChunk) (c c' : ContentChunk) :
  NoDup (map chunk_id tbl) -> In c tbl -> In c' tbl ->
  chunk_id c = chunk_id c' -> c = c'.
Proof.
  induction tbl as [|x tbl IH]; simpl; [tauto|].
  intros Hnd Hc Hc' E. inversion Hnd as [|? ? Hx Hnd']; subst.
  destruct Hc as [->|Hc], Hc' as [->|Hc'].
  - reflexivity.
  - exfalso. apply Hx. rewrite E. apply in_map, Hc'.
  - exfalso. apply Hx. rewrite <- E. apply in_map, Hc.
  - apply IH; assumption.
Qed.

End SearchFacts.



Section SearchOrder.
Import VectorSearch Samples.
Variable cosine_distance : vector -> vector -> Q.

Local Abbreviation search := (search_content_chunks cosine_distance).
Local Abbreviation ranked := (search_ranked cosine_distance).
Local Abbreviation order := (search_order cosine_distance).





End SearchOrder.

(** ** Search: threshold, NULL embeddings, ordering *)

Section SearchClaims.
Import VectorSearch Samples.
Variable cosine_distance : vector -> vector -> Q.

Local Abbreviation search := (search_content_chunks cosine_distance).

(** C3. Whatever the stored chunks, the query vector, the threshold and
    the row count: every row of a search result is the projection of a
    stored chunk whose embedding is not NULL, and, [id] being the
    primary key, a chunk whose embedding is NULL has its id in no result
    row. *)
Theorem null_embedding_never_returned
        (tbl : list ContentChunk) (q : vector) (t : Q) (n : Z)
        (rows : list SearchRow) (c : ContentChunk) :
  NoDup (map chunk_id tbl) ->
  In c tbl ->
  chunk_embedding c = None ->
  search tbl q t n = Ok rows ->
  Forall (fun r => exists c' e, In c' tbl /\ chunk_embedding c' = Some e /\
                                r = search_select cosine_distance q c') rows
  /\ Forall (fun r => row_id r <> chunk_id c) rows.
Proof.
  intros Hpk Hc Hnull Hs.
  assert (Horigin : forall r, In r rows ->
            exists c' e, In c' tbl /\ chunk_embedding c' = Some e /\
                         r = search_select cosine_distance q c').
  { intros r Hr.
    destruct (search_row_origin _ _ _ _ _ _ _ Hs Hr) as [c' [Hc' [Hw ->]]].
    apply search_where_true in Hw. destruct Hw as [e [He _]].
    exists c', e. auto. }
  split; apply Forall_forall; intros r Hr.
  - apply Horigin, Hr.
  - destruct (Horigin r Hr) as [c' [e [Hc' [He ->]]]]. simpl. intros Eid.
    assert (c' = c) by (eapply chunk_by_id_unique; eassumption).
    subst c'. congruence.
Qed.



End SearchClaims.

Ltac solve_nodup :=
  repeat (constructor; [simpl; intuition discriminate|]); constructor.

Lemma null_embedding_never_returned_witness :
  Forall (fun r => exists c' e,
              In c' Samples.half_embedded
              /\ VectorSearch.chunk_embedding c' = Some e
              /\ r = VectorSearch.search_select
                       VectorSearch.unit_cosine_distance Samples.east c')
         [Samples.row "chunk-0" "material-1" 1]
  /\ Forall (fun r => VectorSearch.row_id r <> "chunk-1"%string)
            [Samples.row "chunk-0" "material-1" 1].
Proof.
  apply (null_embedding_never_returned
           VectorSearch.unit_cosine_distance Samples.half_embedded
           Samples.east (1 # 2) 5 _
           (Samples.chunk "chunk-1" "material-1" None)).
  - unfold Samples.half_embedded. simpl. solve_nodup.
  - simpl. auto.
  - reflexivity.
  - reflexivity.
Defined.




(** ** The content trigger leaves the embedding alone *)

Section MapCommutes.
Context {A : Type}.
Variable g : A -> A.




End MapCommutes.

Section TriggerClaims.
Import VectorSearch Samples.
Variable cosine_distance : vector -> vector -> Q.

Local Abbreviation search := (search_content_chunks cosine_distance).





End TriggerClaims.

(** ** Row-level security *)

Section SubqueryFacts.
Context {A : Type}.
Variable key : A -> string.



End SubqueryFacts.

Section RlsFacts.
Import VectorSearch Rls.




(** Without a known current user no chunk is visible. *)
Lemma nothing_visible_without_organization (db : Database) (cur : Session) :
  current_organization db cur = None -> visible_content_chunks db cur = [].
Proof.
  intros Hnone. unfold visible_content_chunks.
  assert (E : materials_of_current_organization db cur = []).
  { unfold materials_of_current_organization, topics_of_current_organization,
      modules_of_current_organization, courses_of_current_organization.
    rewrite Hnone. simpl.
    assert (Ec : filter (fun _ : Course => false) (courses db) = [])
      by (induction (courses db); auto).
    rewrite Ec. simpl.
    assert (Em : filter (fun _ : CourseModule => false) (modules db) = [])
      by (induction (modules db); auto).
    rewrite Em. simpl.
    assert (Et : filter (fun _ : Topic => false) (topics db) = [])
      by (induction (topics db); auto).
    rewrite Et. simpl.
    induction (materials db); auto. }
  unfold content_chunks_isolation_policy. rewrite E. simpl.
  induction (content_chunks db); auto.
Qed.

End RlsFacts.

Section JoinFacts.
Context {A B : Type}.


End JoinFacts.

Section TenantClaims.
Import VectorSearch Rls Samples.
Variable cosine_distance : vector -> vector -> Q.


End TenantClaims.




Section AccessClaims.
Import Rls Samples.



End AccessClaims.


(** ** Spaced-repetition scheduling *)

Section PowerFacts.
Import Scheduler.

Lemma floor_fraction (e : Q) :
  0 <= e - inject_Z (Qfloor e) /\ e - inject_Z (Qfloor e) < 1.
Proof.
  pose proof (Qfloor_le e) as Hlo. pose proof (Qlt_floor e) as Hhi.
  rewrite inject_Z_plus in Hhi. change (inject_Z 1) with 1 in Hhi.
  split; lra.
Qed.

Lemma power_interpolated_positive (e : Q) : 0 < power_interpolated 2 e.
Proof.
  unfold power_interpolated.
  destruct (floor_fraction e) as [Hlo _].
  assert (Hp : 0 < 2 ^ Qfloor e) by (apply Qpower_0_lt; lra).
  apply Qmult_lt_0_compat; [exact Hp | lra].
Qed.

Lemma power_interpolated_increasing (e1 e2 : Q) :
  e1 < e2 -> power_interpolated 2 e1 < power_interpolated 2 e2.
Proof.
  intros Hlt. unfold power_interpolated.
  destruct (floor_fraction e1) as [Hlo1 Hhi1].
  destruct (floor_fraction e2) as [Hlo2 Hhi2].
  assert (Hn : (Qfloor e1 <= Qfloor e2)%Z)
    by (apply Qfloor_resp_le, Qlt_le_weak, Hlt).
  assert (Hp1 : 0 < 2 ^ Qfloor e1) by (apply Qpower_0_lt; lra).
  assert (Hp2 : 0 < 2 ^ Qfloor e2) by (apply Qpower_0_lt; lra).
  destruct (Z.eq_dec (Qfloor e1) (Qfloor e2)) as [E|NE].
  - rewrite <- E in *. apply Qmult_lt_l; [exact Hp1 | lra].
  - assert (Hstep : 2 ^ (Qfloor e1 + 1) <= 2 ^ Qfloor e2)
      by (apply Qpower_le_compat_l; [lia | lra]).
    rewrite Qpower_plus in Hstep by lra.
    change (2 ^ 1) with 2 in Hstep.
    set (a := 2 ^ Qfloor e1) in *. set (b := 2 ^ Qfloor e2) in *.
    set (f1 := e1 - inject_Z (Qfloor e1)) in *.
    set (f2 := e2 - inject_Z (Qfloor e2)) in *.
    apply Qlt_le_trans with (a * 2).
    + apply Qmult_lt_l; [exact Hp1 | lra].
    + apply Qle_trans with b; [exact Hstep|].
      apply Qle_trans with (b * 1); [lra|].
      apply Qmult_le_l; [exact Hp2 | lra].
Qed.

End PowerFacts.

Section ScoreClaims.
Import Scheduler.
Variable POWER : Q -> Q -> Q.
Hypothesis POWER_positive : forall e, 0 < POWER 2 e.
Hypothesis POWER_increasing : forall e1 e2, e1 < e2 -> POWER 2 e1 < POWER 2 e2.

Lemma greatest_floor (p : Q) : p * 5 < 1 -> Qmax (p * 5) 1 = 1.
Proof.
  intros H. unfold Qmax, GenericMinMax.gmax.
  destruct (Qcompare_spec (p * 5) 1) as [E|E|E];
    [exfalso; lra | reflexivity | exfalso; lra].
Qed.

(** C7 (amended). The score of an answered question is
    [days_since_last_seen / 2 ^ max(performance * 5, 1)]. For two
    answered questions seen the same positive time ago with
    [performance_A < performance_B], the score of A is strictly greater
    when [performance_B] is above 0.2, and equal to that of B when
    [performance_B] is below 0.2, where the floor of the exponent holds
    both at 1. *)
Theorem score_falls_with_performance_above_floor
        (current_date last_seen performance_A performance_B : Q) :
  last_seen < current_date ->
  performance_A < performance_B ->
  repetition_score POWER current_date last_seen (Some performance_A)
  == ((current_date - last_seen) / 86400)
     / POWER 2 (Qmax (performance_A * 5) 1)
  /\ (1 # 5 < performance_B ->
      repetition_score POWER current_date last_seen (Some performance_B)
      < repetition_score POWER current_date last_seen (Some performance_A))
  /\ (performance_B < 1 # 5 ->
      repetition_score POWER current_date last_seen (Some performance_B)
      = repetition_score POWER current_date last_seen (Some performance_A)).
Proof.
  intros Hdays Hperf. unfold repetition_score; simpl.
  split; [|split].
  - unfold Qdiv. rewrite Qinv_mult_distr. ring.
  - intros Hfloor.
    set (eA := Qmax (performance_A * 5) 1).
    set (eB := Qmax (performance_B * 5) 1).
    assert (He : eA < eB).
    { subst eA eB.
      destruct (Q.max_spec (performance_A * 5) 1) as [[_ EA]|[_ EA]];
        destruct (Q.max_spec (performance_B * 5) 1) as [[HB EB]|[_ EB]];
        rewrite EA, EB; lra. }
    pose proof (POWER_increasing _ _ He) as HP.
    pose proof (POWER_positive eA) as HA.
    pose proof (POWER_positive eB) as HB.
    unfold Qdiv. apply Qmult_lt_l; [lra|].
    apply -> Qinv_lt_contravar; lra.
  - intros Hfloor.
    rewrite !greatest_floor by lra. reflexivity.
Qed.

End ScoreClaims.

Lemma score_falls_with_performance_above_floor_witness :
  Scheduler.repetition_score
    Scheduler.power_interpolated (10 * Samples.day) 0 (Some 1)
  < Scheduler.repetition_score
      Scheduler.power_interpolated (10 * Samples.day) 0 (Some (1 # 5)).
Proof.
  apply (score_falls_with_performance_above_floor
           Scheduler.power_interpolated
           power_interpolated_positive power_interpolated_increasing
           (10 * Samples.day) 0 (1 # 5) 1).
  - reflexivity.
  - reflexivity.
  - reflexivity.
Defined.

(** C7, as stated, fails below the floor: with performances 0 and 0.1
    and the same ten days since last seen, the two scores are the same,
    not strictly ordered. *)
Lemma score_plateau_below_floor :
  (0 < 1 # 10)
  /\ Scheduler.repetition_score
       Scheduler.power_interpolated (10 * Samples.day) 0 (Some 0)
     = Scheduler.repetition_score
         Scheduler.power_interpolated (10 * Samples.day) 0 (Some (1 # 10))
  /\ Scheduler.repetition_score
       Scheduler.power_interpolated (10 * Samples.day) 0 (Some 0)
     == 5.
Proof. repeat split. Qed.

Section LeftJoinFacts.
Context {A B : Type}.




End LeftJoinFacts.

Section SchedulerFacts.
Import Scheduler.






End SchedulerFacts.

Section ScheduleOrderFacts.
Import Scheduler.
Variable POWER : Q -> Q -> Q.
Variable current_date : Q.





End ScheduleOrderFacts.



(** ** Chunking *)

Section ChunkingFacts.
Import Chunking.
Local Open Scope nat_scope.









End ChunkingFacts.

(** ** The end-to-end scenarios of the specification on the model *)

(** 5200 characters without a natural boundary, target size 1000,
    overlap 100: six chunks, each starting inside its predecessor. *)
Example chunk_scenario :
  option_map Chunking.boundaries
             (Chunking.chunk "material-1" (Chunking.repeat_char "a" 5200)
                             1000 100)
  = Some (Some [(0, 0, 1000); (1, 900, 1900); (2, 1800, 2800);
                (3, 2700, 3700); (4, 3600, 4600); (5, 4500, 5200)]%nat).
Proof. vm_compute. reflexivity. Qed.

(** With a single user, the two unanswered questions come first, then
    the answered ones by rising performance. *)
Example review_scenario :
  Scheduler.question_ids
    (Scheduler.get_spaced_repetition_questions
       Scheduler.power_interpolated Samples.review_course
       (10 * Samples.day) "uma" "course-1" 5)
  = Some ["question-4"; "question-5"; "question-3"; "question-2";
          "question-1"]%string.
Proof. vm_compute. reflexivity. Qed.

(** A negative row count is refused by LIMIT. *)
Example negative_limit :
  VectorSearch.search_content_chunks
    VectorSearch.unit_cosine_distance Samples.untied Samples.east
    (1 # 2) (-1)
  = Err InvalidRowCountInLimit.
Proof. reflexivity. Qed.

(** * Further properties of the code *)

(** ** Search: row count, best matches, rows without embedding *)

Section SortedSplit.
Context {A : Type}.


End SortedSplit.

Section SearchExtras.
Import VectorSearch.
Variable cosine_distance : vector -> vector -> Q.

Local Abbreviation search := (search_content_chunks cosine_distance).



(** X3. Inserting a chunk whose embedding is NULL changes the result of
    no search: the row passes the trigger unchanged and stays invisible
    to similarity search. *)
Theorem insert_without_embedding_is_invisible
        (tbl : list ContentChunk) (row : ContentChunk) (q : vector)
        (t : Q) (n : Z) :
  chunk_embedding row = None ->
  search (insert_chunk tbl row) q t n = search tbl q t n.
Proof.
  intros Hnull. unfold search_content_chunks, search_ranked, insert_chunk,
    update_content_chunk_embedding.
  rewrite filter_app. simpl.
  assert (E : search_where cosine_distance q t row = false)
    by (unfold search_where; rewrite Hnull; reflexivity).
  rewrite E, app_nil_r. reflexivity.
Qed.

End SearchExtras.



Lemma insert_without_embedding_is_invisible_witness :
  VectorSearch.search_content_chunks
    VectorSearch.unit_cosine_distance
    (VectorSearch.insert_chunk
       Samples.untied (Samples.chunk "chunk-2" "material-1" None))
    Samples.east (-1) 5
  = VectorSearch.search_content_chunks
      VectorSearch.unit_cosine_distance Samples.untied Samples.east (-1) 5.
Proof.
  apply (insert_without_embedding_is_invisible
           VectorSearch.unit_cosine_distance).
  reflexivity.
Defined.

(** ** Course-scoped search *)

Section MaterialSearchExtras.
Import VectorSearch MaterialSearch.
Variable cosine_distance : vector -> vector -> Q.




End MaterialSearchExtras.


(** ** Row-level security: all policies *)

Section PolicyFacts.
Import VectorSearch Rls Policies.

















End PolicyFacts.



(** ** Scheduling: which questions are returned *)

Section KeyFacts.
Context {A B : Type}.







End KeyFacts.

Section CourseQuestionFacts.
Import Scheduler CourseQuestions.





End CourseQuestionFacts.

Section HistoryFacts.
Import Scheduler CourseQuestions.







End HistoryFacts.







(** ** The migration script *)

Section MigrationFacts.
Import Migrations.
Local Open Scope list_scope.

Variable w : World.

Lemma includes_spec : forall s sub,
  includes s sub = true <->
  exists before after, s = (before ++ sub ++ after)%string.
Proof.
  assert (prefix_app : forall sub s, String.prefix sub s = true <->
            exists after, s = (sub ++ after)%string).
  { induction sub as [|a sub IH]; intros s; destruct s as [|b s]; simpl.
    - split; [intros _; exists ""%string; reflexivity | reflexivity].
    - split; [intros _; exists (String b s); reflexivity | reflexivity].
    - split; [discriminate | intros [after E]; discriminate].
    - destruct (Ascii.ascii_dec a b) as [->|Hab].
      + rewrite IH. split; intros [after E]; exists after.
        * now rewrite E.
        * now inversion E.
      + split; [discriminate | intros [after E]; inversion E; subst;
               contradiction Hab; reflexivity]. }
  induction s as [|a s IH]; intros sub.
  - change (includes ""%string sub) with (String.prefix sub ""%string || false).
    rewrite orb_false_r, prefix_app. split.
    + intros [after E]. exists ""%string, after. exact E.
    + intros [before [after E]]. destruct before; [exists after; exact E | discriminate].
  - change (includes (String a s) sub)
      with (String.prefix sub (String a s) || includes s sub).
    rewrite orb_true_iff, prefix_app, IH. split.
    + intros [[after E] | [before [after E]]].
      * exists ""%string, after. exact E.
      * exists (String a before), after. simpl. now rewrite E.
    + intros [before [after E]]. destruct before as [|b before].
      * left. exists after. exact E.
      * right. exists before, after. simpl in E. now inversion E.
Qed.


Lemma executeSqlFile_returns : forall filePath description,
  snd (executeSqlFile w filePath description) = counts_as_applied w filePath.
Proof.
  intros filePath description.
  unfold executeSqlFile, counts_as_applied, ran_cleanly, failed_as_duplicate,
    sql_file_failed.
  destruct (read_file w filePath) as [sql|message].
  - destruct (run_sql w sql) as [|message]; [reflexivity|].
    destruct (includes message "already exists"%string); reflexivity.
  - destruct (includes message "already exists"%string); reflexivity.
Qed.


Lemma executeSqlFile_events : forall filePath description,
  Forall (sql_file_event description)
    (fst (executeSqlFile w filePath description)).
Proof.
  intros filePath description.
  unfold executeSqlFile, sql_file_failed.
  destruct (read_file w filePath) as [sql|message].
  - destruct (run_sql w sql) as [|message].
    + repeat constructor.
    + destruct (includes message "already exists"%string); repeat constructor.
  - destruct (includes message "already exists"%string); repeat constructor.
Qed.



Lemma recordMigration_events : forall migrationName,
  Forall (record_event migrationName) (recordMigration w migrationName).
Proof.
  intros migrationName. unfold recordMigration.
  destruct (insert_record w migrationName); repeat constructor.
Qed.


Lemma apply_both_unfold :
  apply_both w =
  fst (executeSqlFile w init_path init_description)
  ++ (if counts_as_applied w init_path
      then recordMigration w init_name
           ++ fst (executeSqlFile w rls_path rls_description)
           ++ (if counts_as_applied w rls_path
               then recordMigration w rls_name else [])
      else []).
Proof.
  unfold apply_both.
  rewrite <- (executeSqlFile_returns init_path init_description),
    <- (executeSqlFile_returns rls_path rls_description).
  destruct (executeSqlFile w init_path init_description) as [e1 b1].
  destruct (executeSqlFile w rls_path rls_description) as [e2 b2].
  reflexivity.
Qed.

Lemma not_in_by : forall (P : Event -> Prop) l e,
  Forall P l -> ~ P e -> ~ In e l.
Proof.
  intros P l e Hall Hne Hin. rewrite Forall_forall in Hall. auto.
Qed.





Lemma sql_file_is_migration_event : forall d l,
  Forall (sql_file_event d) l -> Forall migration_event l.
Proof.
  intros d l H. eapply Forall_impl; [|exact H].
  intros [[]|[]| |[]| |]; simpl; tauto.
Qed.

Lemma record_is_migration_event : forall n l,
  Forall (record_event n) l -> Forall migration_event l.
Proof.
  intros n l H. eapply Forall_impl; [|exact H].
  intros [[]|[]| |[]| |]; simpl; tauto.
Qed.

Lemma apply_both_events : Forall migration_event (apply_both w).
Proof.
  rewrite apply_both_unfold.
  pose proof (sql_file_is_migration_event _ _
                (executeSqlFile_events init_path init_description)) as H1.
  pose proof (sql_file_is_migration_event _ _
                (executeSqlFile_events rls_path rls_description)) as H2.
  pose proof (record_is_migration_event _ _
                (recordMigration_events init_name)) as H3.
  pose proof (record_is_migration_event _ _
                (recordMigration_events rls_name)) as H4.
  apply Forall_app. split; [exact H1|].
  destruct (counts_as_applied w init_path); [|constructor].
  apply Forall_app. split; [exact H3|].
  apply Forall_app. split; [exact H2|].
  destruct (counts_as_applied w rls_path); [exact H4 | constructor].
Qed.

Lemma exit_code_after : forall l rest,
  Forall migration_event l -> exit_code (l ++ rest) = exit_code rest.
Proof.
  induction l as [|e l IH]; intros rest Hall; [reflexivity|].
  inversion Hall as [|? ? He Hl]; subst.
  destruct e as [m|m| |s| |c]; simpl in *; try contradiction; auto.
Qed.

(** The events of [applyMigrations] when the database is reached. *)
Lemma applyMigrations_reached :
  database_reached w = true ->
  applyMigrations w =
  [ConsoleLog Connecting; ClientConnect; ConsoleLog Connected;
   ClientQuery CreateTrackingTable; ConsoleLog TrackingTableReady]
  ++ apply_both w
  ++ [ConsoleLog SetupCompleted; ConsoleLog DatabaseReady]
  ++ close_client w.
Proof.
  unfold database_reached, applyMigrations.
  destruct (direct_url_missing w); [discriminate|].
  destruct (connect w); [|discriminate].
  destruct (create_tracking_table w); [|discriminate].
  reflexivity.
Qed.


Lemma applyMigrations_not_reached :
  database_reached w = false ->
  Forall early_event (applyMigrations w)
  /\ exit_code (applyMigrations w) = 1%Z.
Proof.
  unfold database_reached, applyMigrations.
  destruct (direct_url_missing w).
  - intros _. split; [repeat constructor | reflexivity].
  - destruct (connect w).
    + destruct (create_tracking_table w); [discriminate|].
      intros _. split; [repeat constructor | reflexivity].
    + intros _. split; [repeat constructor | reflexivity].
Qed.


End MigrationFacts.


Section MigrationRun.
Import Migrations.
Local Open Scope list_scope.



(** X15. The script exits with code 1 exactly when DIRECT_URL is unset
    or empty, the connection or the creation of the tracking table
    fails, or closing the connection fails; otherwise with code 0. A
    migration file that fails, or a migration that cannot be recorded,
    changes neither the exit code nor the final message: "Database setup
    completed successfully!" is logged, and the connection closed, in
    every run that reaches the database. *)
Theorem exit_code_ignores_failed_migrations : forall w,
  exit_code (applyMigrations w)
  = (if database_reached w && closes_cleanly w then 0 else 1)%Z
  /\ (In (ConsoleLog SetupCompleted) (applyMigrations w)
      <-> database_reached w = true)
  /\ (In ClientEnd (applyMigrations w) <-> database_reached w = true).
Proof.
  intros w. destruct (database_reached w) eqn:Hr.
  - split; [|split].
    + rewrite (applyMigrations_reached w Hr). simpl.
      rewrite (exit_code_after _ _ (apply_both_events w)). simpl.
      unfold close_client, closes_cleanly.
      destruct (end_client w); reflexivity.
    + split; [reflexivity|]. intros _.
      rewrite (applyMigrations_reached w Hr).
      rewrite !in_app_iff. right. right. left. left. reflexivity.
    + split; [reflexivity|]. intros _.
      rewrite (applyMigrations_reached w Hr).
      rewrite !in_app_iff. right. right. right. left. reflexivity.
  - destruct (applyMigrations_not_reached w Hr) as [Hearly Hexit].
    split; [exact Hexit|].
    split; (split; [|discriminate]); intros H; exfalso; revert H;
      apply (not_in_by early_event); auto.
Qed.

End MigrationRun.

(** ** Frontend utilities *)

Section UtilsFacts.
Import Utils.
Local Open Scope Z_scope.

Lemma to_int32_range : forall x, - 2 ^ 31 <= to_int32 x < 2 ^ 31.
Proof.
  intros x. unfold to_int32.
  pose proof (Z.mod_pos_bound (x + 2 ^ 31) (2 ^ 32) ltac:(lia)). lia.
Qed.

Lemma to_int32_small : forall x, - 2 ^ 31 <= x < 2 ^ 31 -> to_int32 x = x.
Proof.
  intros x Hx. unfold to_int32. rewrite Z.mod_small; lia.
Qed.

Lemma to_int32_congruent : forall x, exists k, to_int32 x = x + k * 2 ^ 32.
Proof.
  intros x. unfold to_int32. exists (- ((x + 2 ^ 31) / 2 ^ 32)).
  pose proof (Z.div_mod (x + 2 ^ 31) (2 ^ 32) ltac:(lia)). lia.
Qed.

Lemma shl_5_range : forall h, - 2 ^ 31 <= shl h 5 < 2 ^ 31.
Proof. intros h. apply to_int32_range. Qed.

Lemma hash_step_congruent : forall h c,
  exists k, hash_step h c = 31 * h + c + k * 2 ^ 32.
Proof.
  intros h c. unfold hash_step, shl.
  change (5 mod 32) with 5. rewrite Z.shiftl_mul_pow2 by lia.
  destruct (to_int32_congruent h) as [k1 E1].
  destruct (to_int32_congruent (to_int32 h * 2 ^ 5)) as [k2 E2].
  exists (k2 + 32 * k1). rewrite E2, E1. change (2 ^ 5) with 32. ring.
Qed.

Lemma string_hash_congruent : forall str h h',
  (exists k, h = h' + k * 2 ^ 32) ->
  exists k, fold_left hash_step str h
            = fold_left (fun a c => 31 * a + c) str h' + k * 2 ^ 32.
Proof.
  induction str as [|c str IH]; intros h h' [k E]; cbn [fold_left].
  - exists k. exact E.
  - apply IH. destruct (hash_step_congruent h c) as [k1 E1].
    exists (k1 + 31 * k). rewrite E1, E. ring.
Qed.

Lemma byte_of_congruent : forall x y i,
  0 <= i <= 3 -> (exists k, x = y + k * 2 ^ 32) -> byte_of x i = byte_of y i.
Proof.
  intros x y i Hi [k ->]. unfold byte_of.
  replace (k * 2 ^ 32) with (k * 2 ^ (32 - 8 * i) * 2 ^ (8 * i)).
  - rewrite Z.div_add by (apply Z.pow_nonzero; lia).
    replace (k * 2 ^ (32 - 8 * i)) with (k * 2 ^ (24 - 8 * i) * 256).
    + apply Z.mod_add. lia.
    + rewrite <- Z.mul_assoc. f_equal.
      change 256 with (2 ^ 8). rewrite <- Z.pow_add_r by lia.
      f_equal. lia.
  - rewrite <- Z.mul_assoc. f_equal. rewrite <- Z.pow_add_r by lia.
    f_equal. lia.
Qed.

Lemma byte_of_range : forall x i, 0 <= byte_of x i < 256.
Proof. intros x i. unfold byte_of. apply Z.mod_pos_bound. lia. Qed.

(** The value of the second loop: byte [i] of the hash. *)
Lemma colour_value : forall hash i,
  0 <= i <= 2 -> band (shr hash (i * 8)) 255 = byte_of hash i.
Proof.
  intros hash i Hi. unfold band, shr.
  assert (Hk : (i * 8) mod 32 = 8 * i) by (rewrite Z.mod_small; lia).
  rewrite Hk. rewrite Z.shiftr_div_pow2 by lia.
  pose proof (to_int32_range hash) as Hr.
  assert (Hpos : 0 < 2 ^ (8 * i)) by (apply Z.pow_pos_nonneg; lia).
  assert (Hq : - 2 ^ 31 <= to_int32 hash / 2 ^ (8 * i) < 2 ^ 31).
  { split.
    - apply Z.div_le_lower_bound; [exact Hpos|].
      assert (1 <= 2 ^ (8 * i)) by lia. nia.
    - apply Z.div_lt_upper_bound; [exact Hpos|].
      assert (1 <= 2 ^ (8 * i)) by lia. nia. }
  rewrite (to_int32_small _ Hq).
  rewrite (to_int32_small 255) by lia.
  change 255 with (Z.ones 8). rewrite Z.land_ones by lia.
  change (2 ^ 8) with 256.
  change ((to_int32 hash / 2 ^ (8 * i)) mod 256)
    with (byte_of (to_int32 hash) i).
  apply byte_of_congruent; [lia|]. apply to_int32_congruent.
Qed.

Lemma toString16_byte : forall v,
  0 <= v < 256 ->
  toString16 v = if v <? 16 then [hex_digit v] else hex_pair v.
Proof.
  intros v Hv. unfold toString16.
  destruct (Z.ltb_spec v 16) as [Hlt|Hge].
  - simpl. destruct (Z.ltb_spec v 16); [|lia].
    rewrite Z.mod_small by lia. reflexivity.
  - assert (Hlog : 4 <= Z.log2 v).
    { change 4 with (Z.log2 16). apply Z.log2_le_mono. exact Hge. }
    destruct (Z.to_nat (Z.log2 v)) as [|n] eqn:En; [lia|].
    simpl. destruct (Z.ltb_spec v 16); [lia|].
    assert (Hq : v / 16 < 16) by (apply Z.div_lt_upper_bound; lia).
    assert (Hq0 : 0 <= v / 16) by (apply Z.div_pos; lia).
    destruct (Z.ltb_spec (v / 16) 16); [|lia].
    rewrite (Z.mod_small (v / 16)) by lia. reflexivity.
Qed.

Lemma padded_byte : forall v,
  0 <= v < 256 ->
  substr_last (literal "00" ++ toString16 v) 2 = hex_pair v.
Proof.
  intros v Hv. rewrite (toString16_byte v Hv).
  destruct (Z.ltb_spec v 16) as [Hlt|Hge].
  - unfold hex_pair. rewrite Z.div_small, Z.mod_small by lia. reflexivity.
  - reflexivity.
Qed.

Lemma colour_part_byte : forall hash i,
  0 <= i <= 2 -> colour_part hash i = hex_pair (byte_of hash i).
Proof.
  intros hash i Hi. unfold colour_part. rewrite (colour_value hash i Hi).
  apply padded_byte. apply byte_of_range.
Qed.

Lemma hex_digit_is_hex : forall d, 0 <= d < 16 -> is_hex_digit (hex_digit d).
Proof.
  intros d Hd. unfold is_hex_digit, hex_digit.
  destruct (Z.ltb_spec d 10); lia.
Qed.

Lemma hex_pair_is_hex : forall b,
  0 <= b < 256 -> Forall is_hex_digit (hex_pair b).
Proof.
  intros b Hb. unfold hex_pair.
  apply Forall_cons; [|apply Forall_cons; [|apply Forall_nil]];
    apply hex_digit_is_hex.
  - split; [apply Z.div_pos; lia | apply Z.div_lt_upper_bound; lia].
  - apply Z.mod_pos_bound. lia.
Qed.

Lemma stringToColor_parts : forall str,
  stringToColor str
  = literal "#"
    ++ hex_pair (byte_of (polynomial_hash str) 0)
    ++ hex_pair (byte_of (polynomial_hash str) 1)
    ++ hex_pair (byte_of (polynomial_hash str) 2).
Proof.
  intros str. unfold stringToColor. cbn [fold_left].
  rewrite !colour_part_byte by lia.
  assert (Hc : exists k, string_hash str = polynomial_hash str + k * 2 ^ 32).
  { apply string_hash_congruent. exists 0. reflexivity. }
  rewrite (byte_of_congruent _ _ 0 ltac:(lia) Hc),
    (byte_of_congruent _ _ 1 ltac:(lia) Hc),
    (byte_of_congruent _ _ 2 ltac:(lia) Hc).
  rewrite <- !app_assoc. reflexivity.
Qed.

Lemma hash_bound : forall str h,
  Forall code_unit str ->
  Z.abs (fold_left hash_step str h)
  <= Z.abs h + Z.of_nat (List.length str) * (2 ^ 31 + 65535).
Proof.
  induction str as [|c str IH]; intros h Hall.
  - simpl. lia.
  - inversion Hall as [|? ? Hc Hrest]; subst.
    cbn [fold_left]. specialize (IH (hash_step h c) Hrest).
    assert (Hstep : Z.abs (hash_step h c) <= Z.abs h + (2 ^ 31 + 65535)).
    { unfold hash_step. pose proof (shl_5_range h). unfold code_unit in Hc.
      lia. }
    change (List.length (c :: str)) with (S (List.length str)).
    rewrite Nat2Z.inj_succ. lia.
Qed.

End UtilsFacts.

(** X16. Whatever the string, [stringToColor] returns "#" followed by
    exactly six lower-case hexadecimal digits. *)
Theorem stringToColor_is_hex_colour : forall str,
  exists digits,
    Utils.stringToColor str = Utils.literal "#" ++ digits
    /\ List.length digits = 6%nat
    /\ Forall Utils.is_hex_digit digits.
Proof.
  intros str. rewrite stringToColor_parts.
  eexists. split; [reflexivity|]. split; [reflexivity|].
  repeat (apply Forall_app; split);
    apply hex_pair_is_hex, byte_of_range.
Qed.


(** X18. On a string of at most 2^21 code units the hash of
    [stringToColor] stays below 2^53 in magnitude, after every
    character: no step of the loop leaves the integers a Number holds
    exactly. *)
Theorem string_hash_exact : forall str n,
  Forall Utils.code_unit str ->
  (Z.of_nat (List.length str) <= 2 ^ 21)%Z ->
  (Z.abs (Utils.string_hash (firstn n str)) < 2 ^ 53)%Z.
Proof.
  intros str n Hall Hlen.
  assert (Hn : Forall Utils.code_unit (firstn n str)).
  { rewrite Forall_forall in *. intros c Hc. apply Hall.
    eapply firstn_In. exact Hc. }
  pose proof (hash_bound (firstn n str) 0%Z Hn) as Hb.
  fold (Utils.string_hash (firstn n str)) in Hb.
  pose proof (length_firstn n str) as Hle.
  change (Z.abs 0) with 0%Z in Hb.
  assert (Hmul : (Z.of_nat (List.length (firstn n str)) * (2 ^ 31 + 65535)
                  <= 2 ^ 21 * (2 ^ 31 + 65535))%Z)
    by (apply Z.mul_le_mono_nonneg_r; lia).
  lia.
Qed.

Lemma string_hash_exact_witness :
  (Z.abs (Utils.string_hash (firstn 5 (Utils.literal "learn-x")))
   < 2 ^ 53)%Z.
Proof.
  apply (string_hash_exact (Utils.literal "learn-x") 5).
  - repeat constructor; vm_compute; discriminate.
  - vm_compute. discriminate.
Defined.

(** ** Truncation and the browser session *)

Section TruncateFacts.
Import Utils.
Local Open Scope Z_scope.

Lemma slice_to_nonneg : forall text n,
  0 <= n < Z.of_nat (List.length text) ->
  slice_to text n = firstn (Z.to_nat n) text
  /\ List.length (slice_to text n) = Z.to_nat n.
Proof.
  intros text n Hn. unfold slice_to.
  destruct (Z.ltb_spec n 0) as [Hneg|_]; [lia|].
  rewrite Z.min_l by lia. split; [reflexivity|].
  rewrite length_firstn. lia.
Qed.

Lemma truncateText_short : forall text n,
  Z.of_nat (List.length text) <= n -> truncateText text n = text.
Proof.
  intros text n Hn. unfold truncateText.
  destruct (Z.leb_spec (Z.of_nat (List.length text)) n); [reflexivity|lia].
Qed.

Lemma truncateText_long : forall text n,
  0 <= n < Z.of_nat (List.length text) ->
  truncateText text n = firstn (Z.to_nat n) text ++ literal "...".
Proof.
  intros text n Hn. unfold truncateText.
  destruct (Z.leb_spec (Z.of_nat (List.length text)) n); [lia|].
  destruct (slice_to_nonneg text n Hn) as [-> _]. reflexivity.
Qed.

End TruncateFacts.

(** X19. For a limit [n >= 0], [truncateText] returns at most [n + 3]
    code units, and exactly [n + 3] whenever the text is longer than
    [n]: the dots come on top of the limit. The first [n] code units are
    those of the text, and truncating the result again changes nothing. *)
Theorem truncateText_limit : forall text n,
  (0 <= n)%Z ->
  (Z.of_nat (List.length (Utils.truncateText text n)) <= n + 3)%Z
  /\ ((n < Z.of_nat (List.length text))%Z ->
      Z.of_nat (List.length (Utils.truncateText text n)) = (n + 3)%Z)
  /\ firstn (Z.to_nat n) (Utils.truncateText text n)
     = firstn (Z.to_nat n) text
  /\ Utils.truncateText (Utils.truncateText text n) n
     = Utils.truncateText text n.
Proof.
  intros text n Hn.
  destruct (Z.leb_spec (Z.of_nat (List.length text)) n) as [Hle|Hgt].
  - rewrite (truncateText_short text n Hle).
    rewrite (truncateText_short text n Hle).
    split; [lia|]. split; [lia|]. split; reflexivity.
  - rewrite (truncateText_long text n ltac:(lia)).
    assert (Hlen : List.length (firstn (Z.to_nat n) text) = Z.to_nat n)
      by (rewrite length_firstn; lia).
    assert (Hres : Z.of_nat (List.length
                     (firstn (Z.to_nat n) text ++ Utils.literal "..."))
                   = (n + 3)%Z).
    { rewrite length_app, Hlen. simpl. lia. }
    assert (Hfirst : firstn (Z.to_nat n)
                       (firstn (Z.to_nat n) text ++ Utils.literal "...")
                     = firstn (Z.to_nat n) text).
    { rewrite firstn_app, Hlen, Nat.sub_diag. simpl.
      rewrite app_nil_r, firstn_firstn, Nat.min_id. reflexivity. }
    split; [lia|]. split; [intros _; exact Hres|]. split; [exact Hfirst|].
    rewrite truncateText_long by lia. rewrite Hfirst. reflexivity.
Qed.

Lemma truncateText_limit_witness :
  (Z.of_nat (List.length
     (Utils.truncateText (Utils.literal "spaced repetition") 6)) <= 6 + 3)%Z
  /\ ((6 < Z.of_nat (List.length (Utils.literal "spaced repetition")))%Z ->
      Z.of_nat (List.length
        (Utils.truncateText (Utils.literal "spaced repetition") 6))
      = (6 + 3)%Z)
  /\ firstn (Z.to_nat 6)
       (Utils.truncateText (Utils.literal "spaced repetition") 6)
     = firstn (Z.to_nat 6) (Utils.literal "spaced repetition")
  /\ Utils.truncateText
       (Utils.truncateText (Utils.literal "spaced repetition") 6) 6
     = Utils.truncateText (Utils.literal "spaced repetition") 6.
Proof.
  apply (truncateText_limit (Utils.literal "spaced repetition") 6).
  vm_compute. discriminate.
Defined.

Section SessionFacts.
Import Session.

Variable jwtDecode : string -> option DecodedToken.

Lemma without_token : forall now b,
  auth_token b = None ->
  isAuthenticated jwtDecode now b = false
  /\ getDecodedToken jwtDecode b = None
  /\ request_authorization b = None.
Proof.
  intros now b E.
  unfold isAuthenticated, getDecodedToken, request_authorization.
  rewrite E. repeat split.
Qed.

Lemma response_error_401 : forall b,
  auth_token (response_error (Some 401%Z) b) = None
  /\ Migrations.includes (pathname (response_error (Some 401%Z) b))
       "/login" = true.
Proof.
  intros b. unfold response_error. simpl.
  destruct (Migrations.includes (pathname b) "/login") eqn:E; simpl.
  - split; [reflexivity | exact E].
  - split; reflexivity.
Qed.

End SessionFacts.

(** X20. After the response interceptor has seen an error with status
    401, no token is stored and the page is on a path that contains
    "/login": [isAuthenticated] is false, no token decodes, and the
    request interceptor adds no Authorization header; the same holds of
    the token after [logout]. An error with another status, or without
    a response, changes nothing. *)
Theorem unauthorized_response_ends_session :
  forall (jwtDecode : string -> option Session.DecodedToken) now b,
    (Session.isAuthenticated jwtDecode now
       (Session.response_error (Some 401%Z) b) = false
     /\ Session.getDecodedToken jwtDecode
          (Session.response_error (Some 401%Z) b) = None
     /\ Session.request_authorization
          (Session.response_error (Some 401%Z) b) = None)
    /\ Migrations.includes
         (Session.pathname (Session.response_error (Some 401%Z) b))
         "/login" = true
    /\ (Session.isAuthenticated jwtDecode now (Session.logout b) = false
        /\ Session.getDecodedToken jwtDecode (Session.logout b) = None
        /\ Session.request_authorization (Session.logout b) = None)
    /\ (forall status,
          status <> Some 401%Z -> Session.response_error status b = b).
Proof.
  intros jwtDecode now b.
  destruct (response_error_401 b) as [Htoken Hpath].
  split; [apply without_token; exact Htoken|].
  split; [exact Hpath|].
  split; [apply without_token; reflexivity|].
  intros status Hs. unfold Session.response_error.
  destruct status as [z|]; [|reflexivity].
  destruct (Z.eq_dec z 401) as [->|Hz]; [congruence|].
  destruct z as [|p|p]; try reflexivity.
  repeat (destruct p as [p|p|]; try reflexivity); congruence.
Qed.

(** X21. When [isAuthenticated] is true, a token is stored that decodes
    to a payload expiring after the current time in seconds; it is the
    payload of [getDecodedToken], and the request interceptor sends
    that token as "Bearer <token>". *)
Theorem authenticated_session_sends_token :
  forall (jwtDecode : string -> option Session.DecodedToken) now b,
    Session.isAuthenticated jwtDecode now b = true ->
    exists token decoded,
      Session.auth_token b = Some token
      /\ jwtDecode token = Some decoded
      /\ now / 1000 < Session.exp decoded
      /\ Session.getDecodedToken jwtDecode b = Some decoded
      /\ Session.request_authorization b
         = Some ("Bearer " ++ token)%string.
Proof.
  intros jwtDecode now b.
  unfold Session.isAuthenticated, Session.getDecodedToken,
    Session.request_authorization.
  destruct (Session.auth_token b) as [token|]; [|discriminate].
  destruct (Session.truthy token); simpl; [|discriminate].
  destruct (jwtDecode token) as [decoded|] eqn:Ed; [|discriminate].
  intros H. exists token, decoded.
  split; [reflexivity|]. split; [exact Ed|].
  split; [|split; reflexivity].
  apply negb_true_iff in H. apply Qnot_le_lt. intros Hle.
  apply Qle_bool_iff in Hle. congruence.
Qed.

Lemma authenticated_session_sends_token_witness :
  exists token decoded,
    Session.auth_token
      (Session.login "header.payload.signature"
         {| Session.auth_token := None; Session.pathname := "/login" |})
    = Some token
    /\ Some {| Session.sub := "uma"; Session.org := "north";
               Session.role := "student"; Session.exp := 1800000000 |}
       = Some decoded
    /\ 1700000000000 / 1000 < Session.exp decoded
    /\ Session.getDecodedToken
         (fun _ => Some {| Session.sub := "uma"; Session.org := "north";
                           Session.role := "student";
                           Session.exp := 1800000000 |})
         (Session.login "header.payload.signature"
            {| Session.auth_token := None; Session.pathname := "/login" |})
       = Some decoded
    /\ Session.request_authorization
         (Session.login "header.payload.signature"
            {| Session.auth_token := None; Session.pathname := "/login" |})
       = Some ("Bearer " ++ token)%string.
Proof.
  apply (authenticated_session_sends_token
           (fun _ => Some {| Session.sub := "uma"; Session.org := "north";
                             Session.role := "student";
                             Session.exp := 1800000000 |})
           1700000000000
           (Session.login "header.payload.signature"
              {| Session.auth_token := None; Session.pathname := "/login" |})).
  vm_compute. reflexivity.
Defined.
